(** * The Puffing execution harness (backend/services.py, backend/app.py)

    A shallow embedding of [PuffingExecutor.validate_syntax] and
    [PuffingExecutor.execute], of the [time_limit] context manager they
    rely on, and of the [/execute] endpoint that calls them.

    The lexer, parser and interpreter ([src.lexer], [src.parser],
    [src.interpreter]) are collaborators the harness only calls: they are
    taken as parameters, each call being described by what the harness can
    observe of it (what it writes to [sys.stdout], how long it computes,
    whether it returns, raises, or never comes back). *)

From Stdlib Require Import ZArith NArith Lia.
From stdpp Require Import base tactics option list strings pretty.

Local Open Scope Z_scope.

(* ================================================================== *)
(** * Part I: definitions                                              *)
(* ================================================================== *)

(** ** Python values the harness handles *)

Module Py.

(** The exception classes the [except] clauses of services.py tell
    apart.  [TimeoutException] is the class declared in services.py;
    [PuffingError name] is [src.errors.PuffingError] or one of its
    subclasses, [name] being its [__name__]; [OtherException name] is
    any other class below [Exception] (ValueError, RecursionError, the
    built-in TimeoutError, ...); [SystemExiting name] is a class below
    [BaseException] that is not below [Exception] (KeyboardInterrupt,
    SystemExit, GeneratorExit). *)
Inductive PyClass : Type :=
| TimeoutException
| PuffingError (name : string)
| OtherException (name : string)
| SystemExiting (name : string).

(** [cls.__name__] *)
Definition class_name (c : PyClass) : string :=
  match c with
  | TimeoutException => "TimeoutException"
  | PuffingError name => name
  | OtherException name => name
  | SystemExiting name => name
  end.

(** A raised exception: its class, [str(e)], and the text
    [traceback.format_exc()] yields while it is being handled. *)
Record PyExc : Type := mkExc {
  exc_class : PyClass;
  exc_str : string;
  exc_traceback : string
}.

(** [isinstance(e, TimeoutException)] *)
Definition is_TimeoutException (e : PyExc) : bool :=
  match exc_class e with TimeoutException => true | _ => false end.

(** [isinstance(e, PuffingError)] *)
Definition is_PuffingError (e : PyExc) : bool :=
  match exc_class e with PuffingError _ => true | _ => false end.

(** [isinstance(e, Exception)] *)
Definition is_Exception (e : PyExc) : bool :=
  match exc_class e with SystemExiting _ => false | _ => true end.

(** Positional arguments as the endpoint passes them. *)
Inductive PyVal : Type :=
| PyNone
| PyStr (s : string)
| PyInt (n : Z)
| PyList (items : list string).

(** [str(n)] for an int, as an f-string renders it. *)
Definition str_int (n : Z) : string := pretty n.

End Py.

Export Py.

(** ** What a call into the interpreter pipeline does *)

Module Pipeline.

(** The observable course of one call into foreign code: it computes
    for a while ([Work d], in microseconds), writes to [sys.stdout]
    ([Write]), and ends by returning, by raising, or not at all
    ([Spin]: a loop that never returns). *)
Inductive Comp (A : Type) : Type :=
| Ret (a : A)
| Raise (e : PyExc)
| Write (text : string) (k : Comp A)
| Work (d : N) (k : Comp A)
| Spin.

Arguments Ret {A} a.
Arguments Raise {A} e.
Arguments Write {A} text k.
Arguments Work {A} d k.
Arguments Spin {A}.

(** Sequencing: [b = f(a)] after [a = c()]. *)
Fixpoint cbind {A B : Type} (c : Comp A) (f : A -> Comp B) : Comp B :=
  match c with
  | Ret a => f a
  | Raise e => Raise e
  | Write text k => Write text (cbind k f)
  | Work d k => Work d (cbind k f)
  | Spin => Spin
  end.

(** Is the call still running [budget] microseconds after it began (in
    the middle of a step, or in a loop that never ends)? *)
Fixpoint runs_past {A : Type} (budget : N) (c : Comp A) : bool :=
  match c with
  | Ret _ => false
  | Raise _ => false
  | Write _ k => runs_past budget k
  | Work d k => if (budget <=? d)%N then true else runs_past (budget - d)%N k
  | Spin => true
  end.

(** How a call left alone (no alarm) ends. *)
Inductive Ending (A : Type) : Type :=
| Returned (a : A)
| Raised (e : PyExc)
| Never.

Arguments Returned {A} a.
Arguments Raised {A} e.
Arguments Never {A}.

Fixpoint ending {A : Type} (c : Comp A) : Ending A :=
  match c with
  | Ret a => Returned a
  | Raise e => Raised e
  | Write _ k => ending k
  | Work _ k => ending k
  | Spin => Never
  end.

(** Everything the call writes, in order. *)
Fixpoint written {A : Type} (c : Comp A) : string :=
  match c with
  | Write text k => text +:+ written k
  | Work _ k => written k
  | _ => ""
  end.

(** The time the call computes for. *)
Fixpoint duration {A : Type} (c : Comp A) : N :=
  match c with
  | Work d k => (d + duration k)%N
  | Write _ k => duration k
  | _ => 0%N
  end.

End Pipeline.

Export Pipeline.

(** ** The process state the harness reads and writes *)

Module Runtime.

(** [now] is the time elapsed since the process started, in
    microseconds; [alarm] the instant at which a pending SIGALRM is due;
    [sys_stdout] the stream object [sys.stdout] is bound to; [streams]
    the text held by every stream object, indexed by object. *)
Record State : Type := mkState {
  now : N;
  alarm : option N;
  sys_stdout : nat;
  streams : list string
}.

Definition set_now (t : N) (s : State) : State :=
  mkState t (alarm s) (sys_stdout s) (streams s).
Definition set_alarm (a : option N) (s : State) : State :=
  mkState (now s) a (sys_stdout s) (streams s).
Definition set_sys_stdout (o : nat) (s : State) : State :=
  mkState (now s) (alarm s) o (streams s).
Definition set_streams (h : list string) (s : State) : State :=
  mkState (now s) (alarm s) (sys_stdout s) h.

(** How a piece of Python code ends: with a value, with an exception in
    flight, or never. *)
Inductive Res (A : Type) : Type :=
| Returns (a : A) (s : State)
| Raises (e : PyExc) (s : State)
| Hangs.

Arguments Returns {A} a s.
Arguments Raises {A} e s.
Arguments Hangs {A}.

Definition M (A : Type) : Type := State -> Res A.

#[global] Instance M_ret : MRet M := fun A a s => Returns a s.

#[global] Instance M_bind : MBind M := fun A B f m s =>
  match m s with
  | Returns a s' => f a s'
  | Raises e s' => Raises e s'
  | Hangs => Hangs
  end.

(** [raise e] *)
Definition raise {A : Type} (e : PyExc) : M A := fun s => Raises e s.

(** [try: m  except BaseException as e: h(e)]; a handler that does not
    match re-raises. *)
Definition try_except {A : Type} (m : M A) (h : PyExc -> M A) : M A :=
  fun s =>
    match m s with
    | Raises e s' => h e s'
    | r => r
    end.

(** [try: m  finally: fin] *)
Definition try_finally {A : Type} (m : M A) (fin : M unit) : M A :=
  fun s =>
    match m s with
    | Returns a s' =>
        match fin s' with
        | Returns _ s'' => Returns a s''
        | Raises e s'' => Raises e s''
        | Hangs => Hangs
        end
    | Raises e s' =>
        match fin s' with
        | Returns _ s'' => Raises e s''
        | Raises e' s'' => Raises e' s''
        | Hangs => Hangs
        end
    | Hangs => Hangs
    end.

Definition get_stdout : M nat := fun s => Returns (sys_stdout s) s.
Definition put_stdout (o : nat) : M unit :=
  fun s => Returns tt (set_sys_stdout o s).

(** [StringIO()]: a new, empty stream object. *)
Definition StringIO : M nat :=
  fun s => Returns (length (streams s)) (set_streams (streams s ++ [""]) s).

(** [o.getvalue()] *)
Definition getvalue (o : nat) : M string :=
  fun s => Returns (default "" (streams s !! o)) s.

(** [sys.stdout.write(text)] *)
Definition stdout_write (text : string) (s : State) : State :=
  set_streams (alter (fun held => held +:+ text) (sys_stdout s) (streams s)) s.

(** The exception [timeout_handler] raises. *)
Definition timeout_exception : PyExc :=
  mkExc TimeoutException "Code execution timed out"
    "services.TimeoutException: Code execution timed out".

(** An exception raised by the Python library itself; its traceback is
    represented by its closing line. *)
Definition library_error (cls message : string) : PyExc :=
  mkExc (OtherException cls) message (cls +:+ ": " +:+ message).

(** The interpreter gets to run the handler of SIGALRM at instant [at]:
    the alarm is spent and [timeout_handler] raises inside whatever is
    running. *)
Definition deliver_alarm {A : Type} (at_instant : N) : M A :=
  fun s =>
    Raises timeout_exception (set_alarm None (set_now at_instant s)).

(** Running foreign code in the process: its writes go to whatever
    [sys.stdout] is bound to and its computing moves the clock.  CPython
    runs a signal handler only between two steps of the interpreter, so
    [Work d] (one bytecode, or one call into native code) is not cut
    short: an alarm that comes due during it is handled when it ends.  A
    loop that never returns is a run of short steps and is stopped once
    the alarm is due.  The handler the harness installs is the only one
    considered, and foreign code is taken not to catch what that handler
    raises. *)
Fixpoint interp {A : Type} (c : Comp A) : M A :=
  fun s =>
    match c with
    | Ret a => Returns a s
    | Raise e => Raises e s
    | Write text k => interp k (stdout_write text s)
    | Work d k =>
        match alarm s with
        | Some due =>
            if (due <=? now s + d)%N then deliver_alarm (now s + d)%N s
            else interp k (set_now (now s + d)%N s)
        | None => interp k (set_now (now s + d)%N s)
        end
    | Spin =>
        match alarm s with
        | Some due => deliver_alarm (N.max (now s) due) s
        | None => Hangs
        end
    end.

(** The state foreign code leaves behind when nothing interrupts it. *)
Definition finish {A : Type} (c : Comp A) (s : State) : State :=
  set_now (now s + duration c)%N (stdout_write (written c) s).

(** [s'] is a later state of the process in which [sys.stdout] is bound
    as in [s] and every stream other than that one holds what it held. *)
Definition later (s s' : State) : Prop :=
  (now s <= now s')%N /\
  sys_stdout s' = sys_stdout s /\
  length (streams s') = length (streams s) /\
  forall o, o <> sys_stdout s -> streams s' !! o = streams s !! o.

End Runtime.

Export Runtime.

(** ** services.py *)

Module Services.

Inductive Platform : Type :=
| Win32      (* sys.platform == 'win32' *)
| Posix.     (* any other platform *)

(** One token of the lexer: the harness reads [token.type] (through
    [str]) and [token.value]. *)
Record Token (TokenType Value : Type) : Type := mkToken {
  tok_type : TokenType;
  tok_value : Value
}.

Arguments mkToken {TokenType Value} tok_type tok_value.
Arguments tok_type {TokenType Value} t.
Arguments tok_value {TokenType Value} t.

(** The serialised form [{"type": ..., "value": ...}]. *)
Record TokenDict (Value : Type) : Type := mkTokenDict {
  td_type : string;
  td_value : Value
}.

Arguments mkTokenDict {Value} td_type td_value.
Arguments td_type {Value} t.
Arguments td_value {Value} t.

(** The dict [execute] returns.  [execution_time] counts units of
    0.0001 s, the precision [round(_, 4)] keeps. *)
Record ExecutionResult : Type := mkResult {
  success : bool;
  output : option string;
  error : option string;
  error_type : option string;
  traceback : option string;
  execution_time : Z
}.

(** [round(x, 4)] of a duration given in whole microseconds: the nearest
    multiple of 0.0001 s.  Python rounds the double nearest to the
    duration, so on a duration halfway between two multiples (one ending
    in 50 microseconds) its answer may be either neighbour; here it is
    the even one.  Nothing below depends on which. *)
Definition round4 (us : Z) : Z :=
  let q := us / 100 in
  let r := us mod 100 in
  if r <? 50 then q
  else if 50 <? r then q + 1
  else if Z.even q then q else q + 1.

Section Harness.

Variables TokenType Value AST : Type.

(** Everything services.py takes from outside itself. *)
Record Env : Type := mkEnv {
  sys_platform : Platform;
  (** is the caller the main thread of the main interpreter? *)
  main_thread : bool;
  (** [time.time()], in microseconds, as a function of elapsed time *)
  wall_clock : N -> Z;
  (** [str(token.type)] *)
  str_type : TokenType -> string;
  (** [Lexer(code).tokenize()] *)
  tokenize : string -> Comp (list (Token TokenType Value));
  (** [Parser(tokens).parse()] *)
  parse : list (Token TokenType Value) -> Comp AST;
  (** [Interpreter().run(ast)] *)
  run : AST -> Comp unit
}.

Variable env : Env.

(** [time.time()] *)
Definition time_time : M Z := fun s => Returns (wall_clock env (now s)) s.

(** [signal.signal(signal.SIGALRM, timeout_handler)]: refused outside
    the main thread. *)
Definition signal_signal : M unit :=
  if main_thread env then mret tt
  else raise (library_error "ValueError"
                "signal only works in main thread of the main interpreter").

(** [signal.alarm(seconds)]: the argument is converted to a C int and
    handed to alarm(2) as an unsigned int; 0 cancels a pending alarm. *)
Definition signal_alarm (seconds : Z) : M unit :=
  if (seconds <? - 2 ^ 31) || (2 ^ 31 <=? seconds) then
    raise (library_error "OverflowError"
             "Python int too large to convert to C int")
  else
    fun s =>
      let u := seconds mod 2 ^ 32 in
      Returns tt
        (set_alarm (if u =? 0 then None
                    else Some (now s + Z.to_N u * 1000000)%N) s).

(** [with time_limit(seconds): body] *)
Definition time_limit {A : Type} (seconds : Z) (body : M A) : M A :=
  match sys_platform env with
  | Posix =>
      signal_signal;;
      signal_alarm seconds;;
      try_finally body (signal_alarm 0)
  | Win32 => body
  end.

(** [PuffingExecutor.validate_syntax(code)] *)
Definition validate_syntax (code : string)
  : M (bool * option string * option (list (TokenDict Value))) :=
  try_except
    (tokens ← interp (tokenize env code);
     interp (parse env tokens);;
     let token_list :=
       (fun token =>
          mkTokenDict (str_type env (tok_type token)) (tok_value token))
         <$> tokens in
     mret (true, None, Some token_list))
    (fun e =>
       if is_PuffingError e then mret (false, Some (exc_str e), None)
       else if is_Exception e then
         mret (false, Some ("Unexpected error: " +:+ exc_str e), None)
       else raise e).

(** [output or "Program executed successfully!"] *)
Definition output_or_placeholder (output : string) : string :=
  match output with
  | EmptyString => "Program executed successfully!"
  | _ => output
  end.

(** The [except] clauses of [execute], tried in the order written. *)
Definition execute_handlers (start_time timeout : Z) (e : PyExc)
  : M ExecutionResult :=
  if is_TimeoutException e then
    t ← time_time;
    let execution_time := t - start_time in
    mret (mkResult false None
            (Some ("Execution timed out after " +:+ str_int timeout +:+ " seconds"))
            (Some "TimeoutError")
            None
            (round4 execution_time))
  else if is_PuffingError e then
    t ← time_time;
    let execution_time := t - start_time in
    mret (mkResult false None
            (Some (exc_str e))
            (Some (class_name (exc_class e)))
            (Some (exc_traceback e))
            (round4 execution_time))
  else if is_Exception e then
    t ← time_time;
    let execution_time := t - start_time in
    mret (mkResult false None
            (Some ("Unexpected error: " +:+ exc_str e))
            (Some (class_name (exc_class e)))
            (Some (exc_traceback e))
            (round4 execution_time))
  else raise e.

(** The block under [with time_limit(timeout)] in [execute]. *)
Definition execute_body (code : string) (start_time : Z)
    (captured_output : nat) : M ExecutionResult :=
  tokens ← interp (tokenize env code);
  ast ← interp (parse env tokens);
  interp (run env ast);;
  output ← getvalue captured_output;
  t ← time_time;
  let execution_time := t - start_time in
  mret (mkResult true (Some (output_or_placeholder output))
          None None None (round4 execution_time)).

(** [PuffingExecutor.execute(code, timeout)] *)
Definition execute (code : string) (timeout : Z) : M ExecutionResult :=
  start_time ← time_time;
  old_stdout ← get_stdout;
  captured_output ← StringIO;
  put_stdout captured_output;;
  try_finally
    (try_except
       (time_limit timeout (execute_body code start_time captured_output))
       (execute_handlers start_time timeout))
    (put_stdout old_stdout).

(** *** Vocabulary for stating what the harness does *)

(** The two calls [validate_syntax] makes, and the three [execute]
    makes, as one course of foreign code. *)
Definition front_end (code : string) : Comp AST :=
  cbind (tokenize env code) (parse env).

Definition pipeline (code : string) : Comp unit :=
  cbind (front_end code) (run env).

(** [{"type": str(token.type), "value": token.value}] *)
Definition serialise (token : Token TokenType Value) : TokenDict Value :=
  mkTokenDict (str_type env (tok_type token)) (tok_value token).

(** The state once [sys.stdout] is bound to the new [StringIO]. *)
Definition redirected (s : State) : State :=
  set_sys_stdout (length (streams s)) (set_streams (streams s ++ [""]) s).

(** The [with] statement of [execute], entered from [s]. *)
Definition guarded (code : string) (timeout : Z) (s : State)
  : Res ExecutionResult :=
  time_limit timeout
    (execute_body code (wall_clock env (now s)) (length (streams s)))
    (redirected s).

(** Does [time_limit] get as far as its [yield]? *)
Definition reaches_yield (timeout : Z) : bool :=
  match sys_platform env with
  | Posix =>
      main_thread env && negb ((timeout <? - 2 ^ 31) || (2 ^ 31 <=? timeout))
  | Win32 => true
  end.

(** The alarm pending while the block under [time_limit] runs: the one
    [time_limit] sets, or on win32, where it sets none, whatever was
    pending before the call. *)
Definition armed (timeout : Z) (s : State) : option N :=
  match sys_platform env with
  | Posix =>
      if timeout mod 2 ^ 32 =? 0 then None
      else Some (now s + Z.to_N (timeout mod 2 ^ 32) * 1000000)%N
  | Win32 => alarm s
  end.

(** The state in which the block under [time_limit] starts. *)
Definition entered (timeout : Z) (s : State) : State :=
  set_alarm (armed timeout s) (redirected s).

(** The state in which [time_limit] is left: [signal.alarm(0)] has
    run where there is an alarm to cancel. *)
Definition exited (s : State) : State :=
  match sys_platform env with
  | Posix => set_alarm None s
  | Win32 => s
  end.

(** Does the pipeline end before the pending alarm, if any, is due? *)
Definition in_time (code : string) (timeout : Z) (s : State) : bool :=
  match armed timeout s with
  | Some due => negb (runs_past (due - now s) (pipeline code))
  | None => true
  end.

(** The same environment with another interpreter. *)
Definition with_run (run' : AST -> Comp unit) : Env :=
  mkEnv (sys_platform env) (main_thread env) (wall_clock env)
    (str_type env) (tokenize env) (parse env) run'.

(** [time.time()] never reads less than it read before. *)
Definition clock_steady : Prop :=
  forall t t' : N, (t <= t')%N -> wall_clock env t <= wall_clock env t'.

End Harness.

(** Exactly one branch of the result is filled in. *)
Definition one_branch (r : ExecutionResult) : Prop :=
  if success r then
    is_Some (output r) /\ error r = None /\ error_type r = None /\
    traceback r = None
  else
    output r = None /\ is_Some (error r) /\ is_Some (error_type r).

Arguments sys_platform {TokenType Value AST} e.
Arguments main_thread {TokenType Value AST} e.
Arguments wall_clock {TokenType Value AST} e _.
Arguments str_type {TokenType Value AST} e _.
Arguments tokenize {TokenType Value AST} e _.
Arguments parse {TokenType Value AST} e _.
Arguments run {TokenType Value AST} e _.
Arguments mkEnv {TokenType Value AST}.
Arguments time_time {TokenType Value AST} env.
Arguments signal_signal {TokenType Value AST} env.
Arguments time_limit {TokenType Value AST} env {A} seconds body.
Arguments validate_syntax {TokenType Value AST} env code.
Arguments execute_handlers {TokenType Value AST} env start_time timeout e.
Arguments execute_body {TokenType Value AST} env code start_time captured_output.
Arguments execute {TokenType Value AST} env code timeout.
Arguments front_end {TokenType Value AST} env code.
Arguments pipeline {TokenType Value AST} env code.
Arguments serialise {TokenType Value AST} env token.
Arguments guarded {TokenType Value AST} env code timeout s.
Arguments reaches_yield {TokenType Value AST} env timeout.
Arguments armed {TokenType Value AST} env timeout s.
Arguments entered {TokenType Value AST} env timeout s.
Arguments exited {TokenType Value AST} env s.
Arguments in_time {TokenType Value AST} env code timeout s.
Arguments with_run {TokenType Value AST} env run'.
Arguments clock_steady {TokenType Value AST} env.

End Services.

Export Services.

(** ** app.py: the /execute endpoint *)

Module App.

(** models.py, [CodeRequest]: the two fields the model declares. *)
Record CodeRequest : Type := mkCodeRequest {
  code : string;
  timeout : Z
}.

(** [request.<name>]: a pydantic model has its declared fields and raises
    [AttributeError] for any other name. *)
Definition getattr (request : CodeRequest) (name : string) : M PyVal :=
  if String.eqb name "code" then mret (PyStr (code request))
  else if String.eqb name "timeout" then mret (PyInt (timeout request))
  else raise (library_error "AttributeError"
                ("'CodeRequest' object has no attribute '" +:+ name +:+ "'")).

(** [a or b] *)
Definition py_or (a b : PyVal) : PyVal :=
  match a with
  | PyNone | PyStr EmptyString | PyInt 0 | PyList [] => b
  | _ => a
  end.

(** The white space [str.strip()] removes, among the ASCII characters. *)
Definition is_space (ch : Ascii.ascii) : bool :=
  let n := Ascii.nat_of_ascii ch in
  ((9 <=? n) && (n <=? 13) || (28 <=? n) && (n <=? 32))%nat.

(** [not s.strip()] *)
Fixpoint is_blank (s : string) : bool :=
  match s with
  | EmptyString => true
  | String ch rest => is_space ch && is_blank rest
  end.

(** [HTTPException(status_code, detail)]; its [str] is the status code,
    a colon and the detail. *)
Definition http_exception (status_code : Z) (detail : string) : PyExc :=
  mkExc (OtherException "HTTPException")
    (str_int status_code +:+ ": " +:+ detail)
    ("fastapi.exceptions.HTTPException: " +:+ str_int status_code +:+ ": " +:+ detail).

Section Endpoint.

Variables TokenType Value AST : Type.
Variable env : Env TokenType Value AST.

(** [executor.execute(code, timeout, *extra)]: the signature of
    [execute] is [(code: str, timeout: int = 5)], so Python refuses any
    further positional argument before the body runs. *)
Definition call_execute (code : string) (timeout : Z) (extra : list PyVal)
  : M ExecutionResult :=
  match extra with
  | [] => execute env code timeout
  | _ =>
      raise (library_error "TypeError"
               ("PuffingExecutor.execute() takes from 1 to 2 positional arguments but "
                +:+ str_int (Z.of_nat (2 + length extra)) +:+ " were given"))
  end.

(** [execute_code(request)], the handler of POST /execute. *)
Definition execute_code (request : CodeRequest) : M ExecutionResult :=
  try_except
    (if is_blank (code request) then
       raise (http_exception 400 "Code cannot be empty")
     else
       input_values ← getattr request "input_values";
       call_execute (code request) (timeout request)
         [py_or input_values (PyList [])])
    (fun e =>
       if is_Exception e then
         raise (http_exception 500 ("Server error: " +:+ exc_str e))
       else raise e).

End Endpoint.

Arguments call_execute {TokenType Value AST} env code timeout extra.
Arguments execute_code {TokenType Value AST} env request.

End App.

(** ** Calls of [execute] on several threads of one process *)

(** The statements of [execute], one at a time, for the two kinds of call
    the interleavings below are made of: a program that prints and
    returns, and a call whose program [time_limit] does not let start.
    The other ways a call can end are those of [execute] above and play
    no part here. *)

Module Threads.

(** What a call hands back, as far as output goes. *)
Inductive Outcome : Type :=
| Succeeded (output : string)
| Failed (error_type : string).

(** One call: what its program prints, piece by piece, and whether
    [time_limit] lets the program start on the calling thread (it does
    on win32 and on the main thread elsewhere; on any other thread
    [signal.signal] raises [ValueError]). *)
Record Call : Type := mkCall {
  prints : list string;
  may_start : bool
}.

(** Where a thread stands in [execute].  A thread can be preempted
    between any two statements, so each constructor is a point between
    statements, holding the locals of the call. *)
Inductive Pc : Type :=
| Entry
    (* before [old_stdout = sys.stdout] *)
| Saved (old_stdout : nat)
    (* before [sys.stdout = captured_output = StringIO()] *)
| Redirected (old_stdout captured_output : nat)
    (* before [with time_limit(timeout)] *)
| Running (old_stdout captured_output : nat) (rest : list string)
    (* inside [interpreter.run(ast)], [rest] still to be printed *)
| Leaving (old_stdout : nat) (result : Outcome)
    (* result built, before [sys.stdout = old_stdout] *)
| Finished (result : Outcome).

Record Thread : Type := mkThread {
  call : Call;
  pc : Pc
}.

(** The next statement of a thread, run on the state all threads share. *)
Definition step (t : Thread) (s : State) : Thread * State :=
  match pc t with
  | Entry =>
      (mkThread (call t) (Saved (sys_stdout s)), s)
  | Saved old_stdout =>
      let captured_output := length (streams s) in
      (mkThread (call t) (Redirected old_stdout captured_output),
       set_sys_stdout captured_output (set_streams (streams s ++ [""]) s))
  | Redirected old_stdout captured_output =>
      if may_start (call t) then
        (mkThread (call t) (Running old_stdout captured_output (prints (call t))), s)
      else
        (mkThread (call t) (Leaving old_stdout (Failed "ValueError")), s)
  | Running old_stdout captured_output (text :: rest) =>
      (mkThread (call t) (Running old_stdout captured_output rest),
       stdout_write text s)
  | Running old_stdout captured_output [] =>
      let output := default "" (streams s !! captured_output) in
      (mkThread (call t)
         (Leaving old_stdout (Succeeded (output_or_placeholder output))), s)
  | Leaving old_stdout result =>
      (mkThread (call t) (Finished result), set_sys_stdout old_stdout s)
  | Finished _ => (t, s)
  end.

(** The process: the shared state and the threads. *)
Definition Config : Type := State * list Thread.

(** The scheduler lets thread [i] run one statement. *)
Definition schedule_one (i : nat) (c : Config) : Config :=
  match c.2 !! i with
  | Some t => let '(t', s') := step t c.1 in (s', <[i := t']> c.2)
  | None => c
  end.

(** A schedule: which thread runs next, in order. *)
Definition run_schedule (schedule : list nat) (c : Config) : Config :=
  fold_left (fun c i => schedule_one i c) schedule c.

(** All calls made, none started. *)
Definition spawn (calls : list Call) : list Thread :=
  (fun c => mkThread c Entry) <$> calls.

(** What each call has returned, if it has. *)
Definition result_of (t : Thread) : option Outcome :=
  match pc t with
  | Finished r => Some r
  | _ => None
  end.

(** Everything a program prints, in one piece. *)
Definition printed (texts : list string) : string :=
  fold_right String.append "" texts.

(** What a call returns when nothing else touches [sys.stdout]. *)
Definition own_result (c : Call) : Outcome :=
  if may_start c then Succeeded (output_or_placeholder (printed (prints c)))
  else Failed "ValueError".

(** The course of the interpreter for a program that only prints. *)
Fixpoint say (texts : list string) : Comp unit :=
  match texts with
  | [] => Ret tt
  | text :: rest => Write text (say rest)
  end.

End Threads.

(** ** Sample programs and processes *)

Module Examples.

Definition newline : string := String (Ascii.ascii_of_nat 10) "".

(** A process on [platform] whose lexer and parser take a little time
    and whose interpreter behaves as [program] says. *)
Definition demo (platform : Platform) (main : bool) (program : Comp unit)
  : Env string string unit :=
  mkEnv platform main Z.of_N (fun t => t)
    (fun code =>
       Work 120 (Ret [mkToken "IDENTIFIER" "print"; mkToken "STRING" code]))
    (fun _ => Work 80 (Ret tt))
    (fun _ => program).

(** A process that has just started, writing to its terminal. *)
Definition idle : State := mkState 0 None 0 [""].

(** [print("Hello, Puffing!");] *)
Definition hello : Comp unit :=
  Work 300 (Write ("Hello, Puffing!" +:+ newline) (Ret tt)).

(** A program that assigns and prints nothing. *)
Definition silent : Comp unit := Work 300 (Ret tt).

(** A loop that never ends. *)
Definition forever : Comp unit := Work 300 Spin.

(** A program that computes for two seconds, then prints. *)
Definition slow : Comp unit :=
  Work 2000000 (Write ("done" +:+ newline) (Ret tt)).

(** Ctrl-C while the program runs. *)
Definition keyboard_interrupt : PyExc :=
  mkExc (SystemExiting "KeyboardInterrupt") "" "KeyboardInterrupt".

Definition interrupted_by_user : Comp unit :=
  Work 300 (Raise keyboard_interrupt).

(** A program during which the interpreter raises [e]. *)
Definition crash (e : PyExc) : Comp unit := Work 300 (Raise e).

(** A runtime error of the language. *)
Definition undefined_variable : PyExc :=
  mkExc (PuffingError "PuffingNameError") "Undefined variable 'x'"
    "PuffingNameError: Undefined variable 'x'".

(** Faults inside the interpreter. *)
Definition key_error : PyExc :=
  mkExc (OtherException "KeyError") "'x'" "KeyError: 'x'".

Definition recursion_error : PyExc :=
  mkExc (OtherException "RecursionError") "maximum recursion depth exceeded"
    "RecursionError: maximum recursion depth exceeded".

(** Python's built-in [TimeoutError], a subclass of [OSError]. *)
Definition builtin_timeout_error : PyExc :=
  mkExc (OtherException "TimeoutError") "timed out" "TimeoutError: timed out".

End Examples.

(** ** app.py: the /validate endpoint *)

Module Validate.

(** models.py, [ValidationRequest] *)
Record ValidationRequest : Type := mkValidationRequest {
  code : string
}.

(** models.py, [ValidationResponse] *)
Record ValidationResponse (Value : Type) : Type := mkValidationResponse {
  valid : bool;
  error : option string;
  tokens : option (list (TokenDict Value))
}.

Arguments mkValidationResponse {Value} valid error tokens.
Arguments valid {Value} v.
Arguments error {Value} v.
Arguments tokens {Value} v.

Section Endpoint.

Variables TokenType Value AST : Type.
Variable env : Env TokenType Value AST.

(** [not s.strip()]: is the string empty once the white space at its
    ends is removed?  Python decides this on the code points of the
    string, Unicode white space included; the answer is taken as
    given. *)
Variable blank : string -> bool.

(** [validate_syntax(request)], the handler of POST /validate. *)
Definition validate_syntax (request : ValidationRequest)
  : M (ValidationResponse Value) :=
  try_except
    (if blank (code request) then
       mret (mkValidationResponse false (Some "Code cannot be empty") None)
     else
       checked ← Services.validate_syntax env (code request);
       let '(is_valid, error_msg, tokens) := checked in
       mret (mkValidationResponse is_valid error_msg
               (if is_valid then tokens else None)))
    (fun e =>
       if is_Exception e then
         raise (App.http_exception 500 ("Server error: " +:+ exc_str e))
       else raise e).

End Endpoint.

Arguments validate_syntax {TokenType Value AST} env blank request.

End Validate.

(** ** app.py: the origins CORS lets in *)

Module Cors.

(** [os.getenv("ENVIRONMENT", "production")]: the variable, or the
    default when it is not set. *)
Definition ENVIRONMENT (variable : option string) : string :=
  default "production" variable.

(** [allowed_origins] once the module is loaded. *)
Definition allowed_origins (variable : option string) : list string :=
  ["https://puffingmanual.web.app";
   "https://puffingmanual.firebaseapp.com"]
  ++ (if String.eqb (ENVIRONMENT variable) "development" then
        ["http://localhost:5173";
         "http://localhost:5000"]
      else []).

(** Does the origin start with [https://]? *)
Definition is_https (origin : string) : bool :=
  String.prefix "https://" origin.

End Cors.

(** ** What a call hands back, the state aside *)

Definition handed_back {A : Type} (r : Res A) : option (A + PyExc) :=
  match r with
  | Returns a _ => Some (inl a)
  | Raises e _ => Some (inr e)
  | Hangs => None
  end.

(** ** Calls of [execute] made one after the other *)

(** Each call returns before the next one is entered. *)
Fixpoint execute_each {TokenType Value AST : Type}
    (env : Env TokenType Value AST) (calls : list (string * Z))
  : M (list ExecutionResult) :=
  match calls with
  | [] => mret []
  | call :: rest =>
      r ← execute env call.1 call.2;
      rs ← execute_each env rest;
      mret (r :: rs)
  end.

(** ** More sample processes *)

Module MoreExamples.

(** A program that spends ten seconds inside one call into native code. *)
Definition native_call : Comp unit := Work 10000000 (Ret tt).

(** The hello program on a machine whose clock is set back by one second
    250 microseconds after the process started. *)
Definition clock_set_back : Env string string unit :=
  mkEnv Posix true
    (fun t => if (t <? 250)%N then 5000000 + Z.of_N t else 4000000 + Z.of_N t)
    (fun t => t)
    (fun code =>
       Work 120 (Ret [mkToken "IDENTIFIER" "print"; mkToken "STRING" code]))
    (fun _ => Work 80 (Ret tt))
    (fun _ => Examples.hello).

(** Ctrl-C while the lexer runs. *)
Definition interrupted_lexer : Env string string unit :=
  mkEnv Posix true Z.of_N (fun t => t)
    (fun code => Work 120 (Raise Examples.keyboard_interrupt))
    (fun _ => Work 80 (Ret tt))
    (fun _ => Examples.hello).

(** An interpreter for programs that print their own source. *)
Definition echo : Env string string string :=
  mkEnv Posix true Z.of_N (fun t => t)
    (fun code => Work 120 (Ret [mkToken "STRING" code]))
    (fun tokens => Work 80 (Ret (fold_right String.append "" (tok_value <$> tokens))))
    (fun ast => Work 300 (Write ast (Ret tt))).

(** A lexer that gives up on an unterminated string. *)
Definition unterminated_string : PyExc :=
  mkExc (PuffingError "LexerError") "Unterminated string at line 1"
    "LexerError: Unterminated string at line 1".

Definition strict_lexer : Env string string unit :=
  mkEnv Posix true Z.of_N (fun t => t)
    (fun code => Work 120 (Raise unterminated_string))
    (fun _ => Work 80 (Ret tt))
    (fun _ => Examples.hello).

End MoreExamples.

(* ================================================================== *)
(** * Part II: properties                                              *)
(* ================================================================== *)

(** ** Strings and streams *)

Lemma append_cons (ch : Ascii.ascii) (a b : string) :
  String ch a +:+ b = String ch (a +:+ b).
Proof. reflexivity. Qed.

Lemma append_empty_r (a : string) : a +:+ "" = a.
Proof.
  induction a as [|ch a IH]; [done|]. by rewrite append_cons, IH.
Qed.

Lemma append_assoc (a b c : string) : (a +:+ b) +:+ c = a +:+ (b +:+ c).
Proof.
  induction a as [|ch a IH]; [done|]. by rewrite !append_cons, IH.
Qed.

Lemma alter_twice {A : Type} (f g : A -> A) (l : list A) (i : nat) :
  alter g i (alter f i l) = alter (fun x => g (f x)) i l.
Proof.
  revert i; induction l as [|x l IH]; intros [|i]; simpl; try done.
  f_equal. apply IH.
Qed.

Lemma state_eta (s : State) :
  mkState (now s) (alarm s) (sys_stdout s) (streams s) = s.
Proof. by destruct s. Qed.

Lemma stdout_write_empty (s : State) : stdout_write "" s = s.
Proof.
  unfold stdout_write, set_streams.
  rewrite list_alter_id; [apply state_eta | apply append_empty_r].
Qed.

Lemma stdout_write_app (t1 t2 : string) (s : State) :
  stdout_write t2 (stdout_write t1 s) = stdout_write (t1 +:+ t2) s.
Proof.
  unfold stdout_write, set_streams; simpl. f_equal.
  rewrite alter_twice. apply list_alter_ext; [|done].
  intros held _. apply append_assoc.
Qed.

(** ** Foreign code running in the process *)

Lemma later_refl (s : State) : later s s.
Proof. unfold later; repeat split; reflexivity || done. Qed.

Lemma later_trans (s1 s2 s3 : State) : later s1 s2 -> later s2 s3 -> later s1 s3.
Proof.
  intros (Ht & Ho & Hl & Hs) (Ht' & Ho' & Hl' & Hs').
  unfold later; repeat split; [lia | congruence | congruence |].
  intros o Ho''. rewrite Hs', Hs; [done | done | congruence].
Qed.

Lemma later_stdout_write (text : string) (s : State) : later s (stdout_write text s).
Proof.
  unfold later, stdout_write; simpl; repeat split; [lia | apply length_alter |].
  intros o Ho. by apply list_lookup_alter_ne.
Qed.

Lemma later_set_now (t : N) (s : State) : (now s <= t)%N -> later s (set_now t s).
Proof. intros; unfold later; simpl; repeat split; done. Qed.

Lemma later_set_alarm (a : option N) (s : State) : later s (set_alarm a s).
Proof. unfold later; simpl; repeat split; reflexivity || done. Qed.

(** Whatever foreign code does, it leaves [sys.stdout] bound as it was,
    writes to that stream only, and does not turn the clock back. *)
Lemma interp_later {A : Type} (c : Comp A) (s : State) :
  match interp c s with
  | Returns _ s' => later s s'
  | Raises _ s' => later s s'
  | Hangs => True
  end.
Proof.
  revert s; induction c as [a|e|text k IH|d k IH|]; intros s; simpl.
  - apply later_refl.
  - apply later_refl.
  - specialize (IH (stdout_write text s)).
    destruct (interp k (stdout_write text s)); try done;
      eapply later_trans; eauto using later_stdout_write.
  - assert (Hstep : later s (set_now (now s + d)%N s)) by (apply later_set_now; lia).
    assert (Hk : match interp k (set_now (now s + d)%N s) with
                 | Returns _ s' => later s s'
                 | Raises _ s' => later s s'
                 | Hangs => True
                 end).
    { specialize (IH (set_now (now s + d)%N s)).
      destruct (interp k (set_now (now s + d)%N s)); try done;
        eapply later_trans; eauto. }
    destruct (alarm s) as [due|]; [|done].
    destruct (due <=? now s + d)%N; [|done].
    unfold deliver_alarm.
    eapply later_trans; [exact Hstep|].
    apply later_set_alarm.
  - destruct (alarm s) as [due|]; [|done].
    unfold deliver_alarm.
    eapply later_trans; [apply (later_set_now (N.max (now s) due)); lia|].
    apply later_set_alarm.
Qed.

Lemma bind_run {A B : Type} (m : M A) (f : A -> M B) (s : State) :
  (m ≫= f) s =
  match m s with
  | Returns a s' => f a s'
  | Raises e s' => Raises e s'
  | Hangs => Hangs
  end.
Proof. reflexivity. Qed.

Lemma bind_assoc {A B C : Type} (m : M A) (f : A -> M B) (g : B -> M C) (s : State) :
  ((m ≫= f) ≫= g) s = (m ≫= fun a => f a ≫= g) s.
Proof. rewrite !bind_run. by destruct (m s). Qed.

(** Sequencing foreign calls in Python is running their composition. *)
Lemma interp_cbind {A B : Type} (c : Comp A) (f : A -> Comp B) (s : State) :
  interp (cbind c f) s = (interp c ≫= fun a => interp (f a)) s.
Proof.
  rewrite bind_run.
  revert s; induction c as [a|e|text k IH|d k IH|]; intros s; simpl; try done.
  - destruct (alarm s) as [due|]; [destruct (due <=? now s + d)%N|]; try done.
  - by destruct (alarm s).
Qed.

(** Foreign code that no alarm cuts short runs its whole course. *)
Lemma interp_uninterrupted {A : Type} (c : Comp A) (s : State) :
  match alarm s with
  | Some due => runs_past (due - now s) c = false
  | None => True
  end ->
  interp c s =
  match ending c with
  | Returned a => Returns a (finish c s)
  | Raised e => Raises e (finish c s)
  | Never => Hangs
  end.
Proof.
  revert s; induction c as [a|e|text k IH|d k IH|]; intros s Hlim; simpl in *.
  - unfold finish; simpl. rewrite stdout_write_empty, N.add_0_r.
    unfold set_now; by rewrite state_eta.
  - unfold finish; simpl. rewrite stdout_write_empty, N.add_0_r.
    unfold set_now; by rewrite state_eta.
  - rewrite IH by done.
    unfold finish. rewrite stdout_write_app. simpl. by destruct (ending k).
  - assert (Hgo : interp k (set_now (now s + d)%N s) =
                  match ending k with
                  | Returned a => Returns a (finish (Work d k) s)
                  | Raised e => Raises e (finish (Work d k) s)
                  | Never => Hangs
                  end).
    { rewrite IH.
      - unfold finish, set_now, stdout_write, set_streams; simpl.
        rewrite N.add_assoc. by destruct (ending k).
      - simpl. destruct (alarm s) as [due|]; [|done].
        destruct (due - now s <=? d)%N eqn:Hd; [done|].
        replace (due - (now s + d))%N with (due - now s - d)%N by lia. done. }
    destruct (alarm s) as [due|]; [|done].
    destruct (due - now s <=? d)%N eqn:Hd; [done|].
    apply N.leb_gt in Hd.
    destruct (due <=? now s + d)%N eqn:Hd'; [apply N.leb_le in Hd'; lia | done].
  - destruct (alarm s); done.
Qed.

(** Foreign code still running when the alarm comes due is stopped by
    the exception of [timeout_handler], not before the alarm is due. *)
Lemma interp_interrupted {A : Type} (c : Comp A) (s : State) (due : N) :
  alarm s = Some due ->
  (now s <= due)%N ->
  runs_past (due - now s) c = true ->
  exists s', interp c s = Raises timeout_exception s' /\
             (due <= now s')%N /\ alarm s' = None.
Proof.
  revert s; induction c as [a|e|text k IH|d k IH|]; intros s Hal Hle Hrun;
    simpl in *; try done.
  - apply IH; done.
  - rewrite Hal.
    destruct (due - now s <=? d)%N eqn:Hd.
    + apply N.leb_le in Hd.
      destruct (due <=? now s + d)%N eqn:Hd'; [|apply N.leb_gt in Hd'; lia].
      eexists; split; [reflexivity|]. simpl. split; [lia | done].
    + apply N.leb_gt in Hd.
      destruct (due <=? now s + d)%N eqn:Hd'; [apply N.leb_le in Hd'; lia|].
      apply IH; simpl; [done | lia |].
      replace (due - (now s + d))%N with (due - now s - d)%N by lia. done.
  - rewrite Hal. eexists; split; [reflexivity|]. simpl. split; [lia | done].
Qed.

(** What foreign code can end in, read off its course. *)
Lemma interp_sound {A : Type} (c : Comp A) (s : State) :
  match interp c s with
  | Returns a _ => ending c = Returned a
  | Raises e _ => (e = timeout_exception /\ is_Some (alarm s)) \/ ending c = Raised e
  | Hangs => ending c = Never /\ alarm s = None
  end.
Proof.
  revert s; induction c as [a|e|text k IH|d k IH|]; intros s; simpl.
  - done.
  - by right.
  - specialize (IH (stdout_write text s)).
    by destruct (interp k (stdout_write text s)).
  - specialize (IH (set_now (now s + d)%N s)). simpl in IH.
    destruct (alarm s) as [due|] eqn:Hal.
    + destruct (due <=? now s + d)%N; [|exact IH].
      left; split; [done | by eexists].
    + exact IH.
  - destruct (alarm s) as [due|]; [|done].
    left; split; [done | by eexists].
Qed.

(** Rounding keeps a duration that is not negative that way. *)
Lemma round4_nonneg (us : Z) : 0 <= us -> 0 <= round4 us.
Proof.
  intros Hus. unfold round4.
  assert (0 <= us / 100) by (apply Z.div_pos; lia).
  destruct (us mod 100 <? 50); [done|].
  destruct (50 <? us mod 100); [lia|].
  destruct (Z.even (us / 100)); lia.
Qed.

(** ** services.py: how [execute] runs *)

Section ExecuteRuns.

Context {TokenType Value AST : Type}.
Variable env : Env TokenType Value AST.

Lemma signal_alarm_cancel (s : State) :
  signal_alarm 0 s = Returns tt (set_alarm None s).
Proof. reflexivity. Qed.

(** The block under [time_limit] is the pipeline followed by the
    construction of the success result. *)
Lemma execute_body_run (code : string) (start_time : Z) (captured_output : nat)
    (s : State) :
  execute_body env code start_time captured_output s =
  match interp (pipeline env code) s with
  | Returns _ s' =>
      Returns
        (mkResult true
           (Some (output_or_placeholder (default "" (streams s' !! captured_output))))
           None None None (round4 (wall_clock env (now s') - start_time)))
        s'
  | Raises e s' => Raises e s'
  | Hangs => Hangs
  end.
Proof.
  unfold pipeline, front_end.
  rewrite interp_cbind, bind_run, interp_cbind, bind_run.
  unfold execute_body. rewrite bind_run.
  destruct (interp (tokenize env code) s) as [tokens s1|e s1|]; [|done..].
  rewrite !bind_run.
  destruct (interp (parse env tokens) s1) as [ast s2|e s2|]; [|done..].
  rewrite !bind_run.
  destruct (interp (run env ast) s2) as [[] s3|e s3|]; done.
Qed.

(** [time_limit] by platform, thread and argument. *)
Lemma guarded_run (code : string) (timeout : Z) (s : State) :
  guarded env code timeout s =
  if reaches_yield env timeout then
    match sys_platform env with
    | Win32 =>
        execute_body env code (wall_clock env (now s)) (length (streams s))
          (redirected s)
    | Posix =>
        match execute_body env code (wall_clock env (now s)) (length (streams s))
                (set_alarm (armed env timeout s) (redirected s)) with
        | Returns r s1 => Returns r (set_alarm None s1)
        | Raises e s1 => Raises e (set_alarm None s1)
        | Hangs => Hangs
        end
    end
  else if main_thread env then
    Raises (library_error "OverflowError" "Python int too large to convert to C int")
      (redirected s)
  else
    Raises (library_error "ValueError"
              "signal only works in main thread of the main interpreter")
      (redirected s).
Proof.
  unfold guarded, reaches_yield, armed, time_limit.
  destruct (sys_platform env); [done|].
  rewrite bind_run. unfold signal_signal.
  destruct (main_thread env); [|done]. simpl.
  rewrite bind_run. unfold signal_alarm at 1.
  destruct ((timeout <? - 2 ^ 31) || (2 ^ 31 <=? timeout)); [done|]. simpl.
  unfold try_finally.
  destruct (execute_body _ _ _ _ _); done.
Qed.

Lemma entered_later (timeout : Z) (s : State) :
  later (redirected s) (entered env timeout s).
Proof. apply later_set_alarm. Qed.

(** What the [with] statement can end in, read off the pipeline. *)
Lemma guarded_sound (code : string) (timeout : Z) (s : State) :
  match guarded env code timeout s with
  | Returns r s1 =>
      later (redirected s) s1 /\
      ending (pipeline env code) = Returned tt /\
      r = mkResult true
            (Some (output_or_placeholder (default "" (streams s1 !! length (streams s)))))
            None None None
            (round4 (wall_clock env (now s1) - wall_clock env (now s)))
  | Raises e s1 =>
      later (redirected s) s1 /\
      (e = timeout_exception \/
       e = library_error "OverflowError" "Python int too large to convert to C int" \/
       e = library_error "ValueError"
             "signal only works in main thread of the main interpreter" \/
       ending (pipeline env code) = Raised e)
  | Hangs =>
      ending (pipeline env code) = Never /\ armed env timeout s = None
  end.
Proof.
  rewrite guarded_run.
  destruct (reaches_yield env timeout) eqn:Hreach.
  - pose proof (interp_later (pipeline env code) (entered env timeout s)) as Hlater.
    pose proof (interp_sound (pipeline env code) (entered env timeout s)) as Hsound.
    pose proof (entered_later timeout s) as Hent.
    assert (Hbody :
      execute_body env code (wall_clock env (now s)) (length (streams s))
        (redirected s) =
      execute_body env code (wall_clock env (now s)) (length (streams s))
        (entered env timeout s) \/ sys_platform env = Posix).
    { destruct (sys_platform env) eqn:Hp; [left | by right].
      unfold entered, armed. by rewrite Hp. }
    destruct (sys_platform env) eqn:Hp.
    + destruct Hbody as [->|]; [|done].
      rewrite execute_body_run.
      destruct (interp (pipeline env code) (entered env timeout s))
        as [[] s1|e s1|].
      * split; [by eapply later_trans | by split].
      * split; [by eapply later_trans|]. destruct Hsound as [[-> _]|]; auto.
      * done.
    + fold (entered env timeout s). rewrite execute_body_run.
      destruct (interp (pipeline env code) (entered env timeout s))
        as [[] s1|e s1|].
      * split; [|by split].
        eapply later_trans; [|apply later_set_alarm]. by eapply later_trans.
      * split.
        { eapply later_trans; [|apply later_set_alarm]. by eapply later_trans. }
        destruct Hsound as [[-> _]|]; auto.
      * done.
  - destruct (main_thread env); (split; [apply later_refl | auto]).
Qed.

(** [execute] is its [with] statement, then the matching [except]
    clause, then the [finally] clause. *)
Lemma execute_run (code : string) (timeout : Z) (s : State) :
  execute env code timeout s =
  match guarded env code timeout s with
  | Returns r s1 => Returns r (set_sys_stdout (sys_stdout s) s1)
  | Raises e s1 =>
      match execute_handlers env (wall_clock env (now s)) timeout e s1 with
      | Returns r s2 => Returns r (set_sys_stdout (sys_stdout s) s2)
      | Raises e' s2 => Raises e' (set_sys_stdout (sys_stdout s) s2)
      | Hangs => Hangs
      end
  | Hangs => Hangs
  end.
Proof.
  unfold execute.
  rewrite bind_run; unfold time_time at 1.
  rewrite bind_run; unfold get_stdout.
  rewrite bind_run; unfold StringIO.
  rewrite bind_run; unfold put_stdout at 1.
  unfold try_finally, try_except, put_stdout.
  change (time_limit env timeout _ _) with (guarded env code timeout s).
  destruct (guarded env code timeout s) as [r s1|e s1|]; done.
Qed.

End ExecuteRuns.

(** ** services.py: what [execute] guarantees *)

Section ExecuteGuarantees.

Context {TokenType Value AST : Type}.
Variable env : Env TokenType Value AST.

(** The [except] clauses leave the state alone and build a failure
    result, or re-raise what is not an [Exception]. *)
Lemma execute_handlers_run (start_time timeout : Z) (e : PyExc) (s : State) :
  execute_handlers env start_time timeout e s =
  if is_TimeoutException e then
    Returns (mkResult false None
               (Some ("Execution timed out after " +:+ str_int timeout +:+ " seconds"))
               (Some "TimeoutError") None
               (round4 (wall_clock env (now s) - start_time))) s
  else if is_PuffingError e then
    Returns (mkResult false None (Some (exc_str e))
               (Some (class_name (exc_class e))) (Some (exc_traceback e))
               (round4 (wall_clock env (now s) - start_time))) s
  else if is_Exception e then
    Returns (mkResult false None (Some ("Unexpected error: " +:+ exc_str e))
               (Some (class_name (exc_class e))) (Some (exc_traceback e))
               (round4 (wall_clock env (now s) - start_time))) s
  else Raises e s.
Proof.
  unfold execute_handlers.
  destruct (is_TimeoutException e); [done|].
  destruct (is_PuffingError e); [done|].
  by destruct (is_Exception e).
Qed.

(** Once [time_limit] yields, the [with] statement is the pipeline run
    under the alarm, then the success result. *)
Lemma guarded_body (code : string) (timeout : Z) (s : State) :
  reaches_yield env timeout = true ->
  guarded env code timeout s =
  match interp (pipeline env code) (entered env timeout s) with
  | Returns _ s1 =>
      Returns
        (mkResult true
           (Some (output_or_placeholder (default "" (streams s1 !! length (streams s)))))
           None None None
           (round4 (wall_clock env (now s1) - wall_clock env (now s))))
        (exited env s1)
  | Raises e s1 => Raises e (exited env s1)
  | Hangs => Hangs
  end.
Proof.
  intros Hreach. rewrite guarded_run, Hreach.
  unfold exited, entered, armed.
  destruct (sys_platform env); rewrite execute_body_run.
  - change (set_alarm (alarm s) (redirected s)) with (redirected s).
    by destruct (interp (pipeline env code) (redirected s)).
  - by destruct (interp (pipeline env code) _).
Qed.

(** A pipeline that ends in time runs its whole course. *)
Lemma pipeline_in_time (code : string) (timeout : Z) (s : State) :
  in_time env code timeout s = true ->
  interp (pipeline env code) (entered env timeout s) =
  match ending (pipeline env code) with
  | Returned a => Returns a (finish (pipeline env code) (entered env timeout s))
  | Raised e => Raises e (finish (pipeline env code) (entered env timeout s))
  | Never => Hangs
  end.
Proof.
  intros Htime. apply interp_uninterrupted.
  unfold in_time in Htime. unfold entered at 1 2; simpl.
  destruct (armed env timeout s); [|done].
  by apply negb_true_iff in Htime.
Qed.

(** What the new [StringIO] holds after the pipeline is what the
    pipeline wrote. *)
Lemma captured_output_written {A : Type} (c : Comp A) (timeout : Z) (s : State) :
  default "" (streams (finish c (entered env timeout s)) !! length (streams s))
  = written c.
Proof.
  unfold finish, stdout_write, entered, redirected; simpl.
  rewrite list_lookup_alter_eq, lookup_app_r by lia.
  by rewrite Nat.sub_diag.
Qed.

(** Every result [execute] returns has one branch filled in and was
    timed from the entry of the call to the state it is returned in. *)
Lemma execute_returns_inv (code : string) (timeout : Z) (s s' : State)
    (r : ExecutionResult) :
  execute env code timeout s = Returns r s' ->
  one_branch r /\
  (now s <= now s')%N /\
  execution_time r = round4 (wall_clock env (now s') - wall_clock env (now s)).
Proof.
  rewrite execute_run.
  pose proof (guarded_sound env code timeout s) as Hg.
  destruct (guarded env code timeout s) as [r1 s1|e s1|]; [| |done].
  - destruct Hg as ((Ht & _) & _ & ->). intros [= <- <-].
    unfold one_branch; simpl. repeat split; eauto.
  - destruct Hg as ((Ht & _) & _). rewrite execute_handlers_run.
    destruct (is_TimeoutException e);
      [|destruct (is_PuffingError e); [|destruct (is_Exception e); [|done]]];
      intros [= <- <-]; unfold one_branch; simpl; repeat split; eauto.
Qed.


(** With a timeout the API accepts, on the main thread of a platform
    that has SIGALRM, the alarm is armed [timeout] seconds ahead. *)
Lemma posix_arms (timeout : Z) (s : State) :
  sys_platform env = Posix ->
  main_thread env = true ->
  0 < timeout < 2 ^ 31 ->
  reaches_yield env timeout = true /\
  armed env timeout s = Some (now s + Z.to_N timeout * 1000000)%N.
Proof.
  intros Hp Hm Ht. unfold reaches_yield, armed. rewrite Hp, Hm.
  assert (H31 : 2 ^ 31 = 2147483648) by reflexivity.
  assert (H32 : 2 ^ 32 = 4294967296) by reflexivity.
  assert (Hlo : (timeout <? - 2 ^ 31) = false) by (apply Z.ltb_ge; lia).
  assert (Hhi : (2 ^ 31 <=? timeout) = false) by (apply Z.leb_gt; lia).
  assert (Hmod : timeout mod 2 ^ 32 = timeout) by (apply Z.mod_small; lia).
  rewrite Hlo, Hhi, Hmod.
  destruct (Z.eqb_spec timeout 0); [lia|].
  split; reflexivity.
Qed.


(** C8 (as amended): when the pipeline fails, in time, with an exception
    that is an instance of [Exception] but neither the timeout nor a
    language error, [execute] returns a failure result whose
    [error_type] is the name of the class of that exception, whose
    [error] is "Unexpected error: " followed by the stringified
    exception, and whose [traceback] is the formatted trace. *)
Theorem execute_unexpected_failure (code : string) (timeout : Z) (s : State)
    (e : PyExc) :
  reaches_yield env timeout = true ->
  ending (pipeline env code) = Raised e ->
  in_time env code timeout s = true ->
  is_TimeoutException e = false ->
  is_PuffingError e = false ->
  is_Exception e = true ->
  exists t s',
    execute env code timeout s =
    Returns
      (mkResult false None
         (Some ("Unexpected error: " +:+ exc_str e))
         (Some (class_name (exc_class e)))
         (Some (exc_traceback e))
         t)
      s'.
Proof.
  intros Hreach Hend Htime Hnt Hnp He.
  rewrite execute_run, guarded_body, pipeline_in_time, Hend by done.
  rewrite execute_handlers_run, Hnt, Hnp, He.
  by eexists _, _.
Qed.

(** C10 (as amended): for every result [execute] returns, provided the
    pipeline raised no exception whose own class is named
    "TimeoutError", [traceback] is present if and only if the call
    failed with an [error_type] other than "TimeoutError". *)
Theorem traceback_iff_not_timeout (code : string) (timeout : Z) (s s' : State)
    (r : ExecutionResult) :
  (forall e, ending (pipeline env code) = Raised e ->
             class_name (exc_class e) <> "TimeoutError") ->
  execute env code timeout s = Returns r s' ->
  (traceback r <> None <->
   success r = false /\ error_type r <> Some "TimeoutError").
Proof.
  intros Hname. rewrite execute_run.
  pose proof (guarded_sound env code timeout s) as Hg.
  destruct (guarded env code timeout s) as [r1 s1|e s1|]; [| |done].
  - destruct Hg as (_ & _ & ->). intros [= <- <-]; simpl.
    split; [done | by intros []].
  - destruct Hg as (_ & Horigin). rewrite execute_handlers_run.
    destruct (is_TimeoutException e) eqn:Ht.
    { intros [= <- <-]; simpl. split; [done | by intros []]. }
    assert (Hcls : class_name (exc_class e) <> "TimeoutError").
    { destruct Horigin as [->|[->|[->|Hraised]]]; [done..|]. by apply Hname. }
    destruct (is_PuffingError e); [|destruct (is_Exception e); [|done]];
      intros [= <- <-]; simpl;
      (split; [intros _; split; [done | congruence] | done]).
Qed.

(** Off the main thread of a platform with SIGALRM the program is never
    started: [signal.signal] raises and the call reports that. *)
Lemma execute_off_main_thread (code : string) (timeout : Z) (s : State) :
  sys_platform env = Posix ->
  main_thread env = false ->
  exists s',
    execute env code timeout s =
    Returns
      (mkResult false None
         (Some "Unexpected error: signal only works in main thread of the main interpreter")
         (Some "ValueError")
         (Some "ValueError: signal only works in main thread of the main interpreter")
         0)
      s'.
Proof.
  intros Hp Hm. rewrite execute_run, guarded_run.
  unfold reaches_yield. rewrite Hp, Hm. cbn [andb]. cbv beta iota.
  rewrite execute_handlers_run. simpl.
  rewrite Z.sub_diag. by eexists.
Qed.


(** C5 (as amended): where [time_limit] lets the program start (on
    win32, or on the main thread with a timeout that fits a C int), a
    valid program that ends within its budget makes [execute]
    return success; if it wrote nothing the output is the placeholder
    "Program executed successfully!", never the empty string, and if it
    wrote something the output is exactly what it wrote. *)
Theorem execute_success_output (code : string) (timeout : Z) (s : State) :
  reaches_yield env timeout = true ->
  ending (pipeline env code) = Returned tt ->
  in_time env code timeout s = true ->
  exists r s',
    execute env code timeout s = Returns r s' /\
    success r = true /\
    output r <> Some "" /\
    (written (pipeline env code) = "" ->
     output r = Some "Program executed successfully!") /\
    (written (pipeline env code) <> "" ->
     output r = Some (written (pipeline env code))).
Proof.
  intros Hreach Hend Htime.
  rewrite execute_run, guarded_body, pipeline_in_time, Hend by done.
  rewrite captured_output_written.
  eexists _, _; split; [reflexivity|]. simpl. split; [done|].
  split; [by destruct (written (pipeline env code))|].
  split; [by intros -> | intros Hout].
  by destruct (written (pipeline env code)).
Qed.

(** C6: on every way out of [execute] (a result returned on success, on
    a language error, on timeout or on an unexpected failure, or an
    exception let through) [sys.stdout] is bound to the stream it was
    bound to before the call, and no stream that existed before the call
    has been written to. *)
Theorem execute_restores_stdout (code : string) (timeout : Z) (s : State) :
  match execute env code timeout s with
  | Returns _ s' | Raises _ s' =>
      sys_stdout s' = sys_stdout s /\
      forall o, (o < length (streams s))%nat -> streams s' !! o = streams s !! o
  | Hangs => True
  end.
Proof.
  rewrite execute_run.
  pose proof (guarded_sound env code timeout s) as Hg.
  assert (Hkeep : forall s1, later (redirected s) s1 ->
            forall o, (o < length (streams s))%nat ->
                      streams s1 !! o = streams s !! o).
  { intros s1 (_ & _ & _ & Hs) o Ho.
    rewrite Hs by (simpl; lia). unfold redirected; simpl.
    apply lookup_app_l. exact Ho. }
  destruct (guarded env code timeout s) as [r1 s1|e s1|]; [| |done].
  - destruct Hg as (Hl & _). split; [done | exact (Hkeep s1 Hl)].
  - destruct Hg as (Hl & _). rewrite execute_handlers_run.
    destruct (is_TimeoutException e);
      [|destruct (is_PuffingError e); [|destruct (is_Exception e)]];
      (split; [done | exact (Hkeep s1 Hl)]).
Qed.

End ExecuteGuarantees.

(** ** services.py: what [validate_syntax] guarantees *)

Section ValidateSyntax.

Context {TokenType Value AST : Type}.
Variable env : Env TokenType Value AST.

Lemma ending_cbind {A B : Type} (c : Comp A) (f : A -> Comp B) :
  ending (cbind c f) =
  match ending c with
  | Returned a => ending (f a)
  | Raised e => Raised e
  | Never => Never
  end.
Proof. induction c; simpl; done. Qed.

Lemma finish_alarm {A : Type} (c : Comp A) (s : State) :
  alarm (finish c s) = alarm s.
Proof. reflexivity. Qed.

(** [validate_syntax] is the two front-end calls, then the token list
    or the matching [except] clause. *)
Lemma validate_syntax_run (code : string) (s : State) :
  validate_syntax env code s =
  match interp (tokenize env code) s with
  | Returns tokens s1 =>
      match interp (parse env tokens) s1 with
      | Returns _ s2 => Returns (true, None, Some (serialise env <$> tokens)) s2
      | Raises e s2 =>
          if is_PuffingError e then Returns (false, Some (exc_str e), None) s2
          else if is_Exception e then
            Returns (false, Some ("Unexpected error: " +:+ exc_str e), None) s2
          else Raises e s2
      | Hangs => Hangs
      end
  | Raises e s1 =>
      if is_PuffingError e then Returns (false, Some (exc_str e), None) s1
      else if is_Exception e then
        Returns (false, Some ("Unexpected error: " +:+ exc_str e), None) s1
      else Raises e s1
  | Hangs => Hangs
  end.
Proof.
  unfold validate_syntax, try_except. rewrite bind_run.
  destruct (interp (tokenize env code) s) as [tokens s1|e s1|]; [| |done].
  - rewrite bind_run.
    destruct (interp (parse env tokens) s1) as [ast s2|e s2|]; [done| |done].
    destruct (is_PuffingError e); [done|]. by destruct (is_Exception e).
  - destruct (is_PuffingError e); [done|]. by destruct (is_Exception e).
Qed.

(** The front end raising [e] is [validate_syntax] handing [e] to its
    [except] clauses. *)
Lemma validate_syntax_raised (code : string) (s : State) (e : PyExc) :
  alarm s = None ->
  ending (front_end env code) = Raised e ->
  exists s',
    validate_syntax env code s =
    if is_PuffingError e then Returns (false, Some (exc_str e), None) s'
    else if is_Exception e then
      Returns (false, Some ("Unexpected error: " +:+ exc_str e), None) s'
    else Raises e s'.
Proof.
  intros Hal Hend. unfold front_end in Hend. rewrite ending_cbind in Hend.
  rewrite validate_syntax_run.
  rewrite (interp_uninterrupted (tokenize env code) s) by (by rewrite Hal).
  destruct (ending (tokenize env code)) as [tokens|e'|]; [| |done].
  - rewrite (interp_uninterrupted (parse env tokens))
      by (by rewrite finish_alarm, Hal).
    rewrite Hend. by eexists.
  - injection Hend as ->. by eexists.
Qed.

(** C7 (as amended): [validate_syntax], called with no alarm pending,
    tokenizes, then parses.  When both succeed it returns
    [(True, None, tokens)], the tokens serialised as type/value pairs in
    the order the lexer gave them; when either raises a [PuffingError]
    it returns [(False, str(e), None)]; when either fails with any other
    instance of [Exception] it returns
    [(False, "Unexpected error: " + str(e), None)]; an exception that is
    not an instance of [Exception] is let through to the caller.  It
    never calls the interpreter: its result is the same whatever [run]
    would do. *)
Theorem validate_syntax_cases (code : string) (s : State) :
  alarm s = None ->
  (forall tokens ast,
      ending (tokenize env code) = Returned tokens ->
      ending (parse env tokens) = Returned ast ->
      exists s', validate_syntax env code s =
                 Returns (true, None, Some (serialise env <$> tokens)) s') /\
  (forall e,
      ending (front_end env code) = Raised e ->
      is_PuffingError e = true ->
      exists s', validate_syntax env code s =
                 Returns (false, Some (exc_str e), None) s') /\
  (forall e,
      ending (front_end env code) = Raised e ->
      is_PuffingError e = false ->
      is_Exception e = true ->
      exists s', validate_syntax env code s =
                 Returns (false, Some ("Unexpected error: " +:+ exc_str e), None) s') /\
  (forall e,
      ending (front_end env code) = Raised e ->
      is_Exception e = false ->
      exists s', validate_syntax env code s = Raises e s') /\
  (forall run' : AST -> Comp unit,
      validate_syntax (with_run env run') code s = validate_syntax env code s).
Proof.
  intros Hal. split; [|split; [|split; [|split]]].
  - intros tokens ast Htok Hparse. rewrite validate_syntax_run.
    rewrite (interp_uninterrupted (tokenize env code) s), Htok by (by rewrite Hal).
    rewrite (interp_uninterrupted (parse env tokens)), Hparse
      by (by rewrite finish_alarm, Hal).
    by eexists.
  - intros e Hend Hp.
    destruct (validate_syntax_raised code s e Hal Hend) as [s' Hs'].
    rewrite Hp in Hs'. by exists s'.
  - intros e Hend Hp He.
    destruct (validate_syntax_raised code s e Hal Hend) as [s' Hs'].
    rewrite Hp, He in Hs'. by exists s'.
  - intros e Hend He.
    assert (Hp : is_PuffingError e = false).
    { unfold is_Exception in He. unfold is_PuffingError.
      by destruct (exc_class e). }
    destruct (validate_syntax_raised code s e Hal Hend) as [s' Hs'].
    rewrite Hp, He in Hs'. by exists s'.
  - reflexivity.
Qed.

End ValidateSyntax.

(** ** The guarantees on sample programs *)

Section Samples.

Import Examples MoreExamples.






(** C5, where it fails: a valid program that prints nothing and ends at
    once, called on a thread other than the main one, is not run; the
    call fails with the [ValueError] of [signal.signal]. *)
Lemma valid_program_refused_off_main_thread :
  ending (pipeline (demo Posix false silent) "x = 1;") = Returned tt /\
  written (pipeline (demo Posix false silent) "x = 1;") = "" /\
  execute (demo Posix false silent) "x = 1;" 5 idle
  = Returns
      (mkResult false None
         (Some "Unexpected error: signal only works in main thread of the main interpreter")
         (Some "ValueError")
         (Some "ValueError: signal only works in main thread of the main interpreter")
         0)
      (mkState 0 None 0 [""; ""]).
Proof. split; [|split]; vm_compute; reflexivity. Qed.

(** The amended C5 on a program that prints nothing. *)
Lemma execute_success_output_witness :
  exists r s',
    execute (demo Posix true silent) "x = 1;" 5 idle = Returns r s' /\
    success r = true /\
    output r <> Some "" /\
    (written (pipeline (demo Posix true silent) "x = 1;") = "" ->
     output r = Some "Program executed successfully!") /\
    (written (pipeline (demo Posix true silent) "x = 1;") <> "" ->
     output r = Some (written (pipeline (demo Posix true silent) "x = 1;"))).
Proof.
  apply (execute_success_output (demo Posix true silent) "x = 1;" 5 idle).
  - reflexivity.
  - reflexivity.
  - vm_compute; reflexivity.
Defined.

(** C8, where it fails: two faults of the interpreter are reported under
    two different kinds, the names of their classes, and the message is
    not the stringified fault but that text behind a fixed prefix. *)
Lemma unexpected_failure_kind_and_message :
  execute (demo Posix true (crash key_error)) "print(x);" 5 idle
  = Returns
      (mkResult false None (Some "Unexpected error: 'x'") (Some "KeyError")
         (Some "KeyError: 'x'") 5)
      (mkState 500 None 0 [""; ""]) /\
  execute (demo Posix true (crash recursion_error)) "f();" 5 idle
  = Returns
      (mkResult false None
         (Some "Unexpected error: maximum recursion depth exceeded")
         (Some "RecursionError")
         (Some "RecursionError: maximum recursion depth exceeded") 5)
      (mkState 500 None 0 [""; ""]) /\
  Some "Unexpected error: 'x'" <> Some (exc_str key_error).
Proof. split; [|split]; vm_compute; (reflexivity || discriminate). Qed.

(** The amended C8 on a [KeyError] inside the interpreter. *)
Lemma execute_unexpected_failure_witness :
  exists t s',
    execute (demo Posix true (crash key_error)) "print(x);" 5 idle =
    Returns
      (mkResult false None (Some "Unexpected error: 'x'") (Some "KeyError")
         (Some "KeyError: 'x'") t)
      s'.
Proof.
  apply (execute_unexpected_failure (demo Posix true (crash key_error))
           "print(x);" 5 idle key_error); reflexivity.
Defined.

(** C10, where it fails: the interpreter raising Python's built-in
    [TimeoutError] is a failure whose kind reads "TimeoutError" and that
    carries a traceback all the same. *)
Lemma traceback_with_timeout_kind :
  execute (demo Posix true (crash builtin_timeout_error)) "f();" 5 idle
  = Returns
      (mkResult false None (Some "Unexpected error: timed out")
         (Some "TimeoutError") (Some "TimeoutError: timed out") 5)
      (mkState 500 None 0 [""; ""]).
Proof. vm_compute; reflexivity. Qed.

(** The amended C10 on a language error. *)
Lemma traceback_iff_not_timeout_witness :
  let env := demo Posix true (crash undefined_variable) in
  let r := mkResult false None (Some "Undefined variable 'x'")
             (Some "PuffingNameError")
             (Some "PuffingNameError: Undefined variable 'x'") 5 in
  let s' := mkState 500 None 0 [""; ""] in
  (forall e, ending (pipeline env "print(x);") = Raised e ->
             class_name (exc_class e) <> "TimeoutError") /\
  execute env "print(x);" 5 idle = Returns r s' /\
  (traceback r <> None <->
   success r = false /\ error_type r <> Some "TimeoutError").
Proof.
  assert (Hname : forall e,
             ending (pipeline (demo Posix true (crash undefined_variable)) "print(x);")
             = Raised e ->
             class_name (exc_class e) <> "TimeoutError")
    by (intros e [= <-]; discriminate).
  split; [exact Hname|]. split; [vm_compute; reflexivity|].
  apply (traceback_iff_not_timeout (demo Posix true (crash undefined_variable))
           "print(x);" 5 idle (mkState 500 None 0 [""; ""])
           (mkResult false None (Some "Undefined variable 'x'")
              (Some "PuffingNameError")
              (Some "PuffingNameError: Undefined variable 'x'") 5)
           Hname).
  vm_compute; reflexivity.
Defined.

(** The hello program, start to finish. *)
Example execute_hello :
  execute (demo Posix true hello) "print(1);" 5 idle
  = Returns
      (mkResult true (Some ("Hello, Puffing!" +:+ newline)) None None None 5)
      (mkState 500 None 0 [""; "Hello, Puffing!" +:+ newline]).
Proof. vm_compute; reflexivity. Qed.

(** A language error is reported under the name of its class. *)
Example execute_language_error :
  execute (demo Posix true (crash undefined_variable)) "print(x);" 5 idle
  = Returns
      (mkResult false None (Some "Undefined variable 'x'")
         (Some "PuffingNameError")
         (Some "PuffingNameError: Undefined variable 'x'") 5)
      (mkState 500 None 0 [""; ""]).
Proof. vm_compute; reflexivity. Qed.

(** The same source, checked only. *)
Example validate_hello :
  validate_syntax (demo Posix true hello) "print(1);" idle
  = Returns
      (true, None,
       Some [mkTokenDict "IDENTIFIER" "print"; mkTokenDict "STRING" "print(1);"])
      (mkState 200 None 0 [""]).
Proof. vm_compute; reflexivity. Qed.

(** POST /execute with the hello program: a server error. *)
Example execute_code_hello :
  App.execute_code (demo Posix true hello) (App.mkCodeRequest "print(1);" 5) idle
  = Raises
      (App.http_exception 500
         "Server error: 'CodeRequest' object has no attribute 'input_values'")
      idle.
Proof. vm_compute; reflexivity. Qed.

(** C7, where it fails: Ctrl-C while the lexer runs is not turned into
    an answer; [validate_syntax] lets it through. *)
Lemma validate_syntax_lets_through :
  validate_syntax interrupted_lexer "print(1);" idle
  = Raises keyboard_interrupt (mkState 120 None 0 [""]).
Proof. vm_compute; reflexivity. Qed.

(** The amended C7 on the hello program. *)
Lemma validate_syntax_cases_witness :
  let env := demo Posix true hello in
  let code := "print(1);" in
  (forall tokens ast,
      ending (tokenize env code) = Returned tokens ->
      ending (parse env tokens) = Returned ast ->
      exists s', validate_syntax env code idle =
                 Returns (true, None, Some (serialise env <$> tokens)) s') /\
  (forall e,
      ending (front_end env code) = Raised e ->
      is_PuffingError e = true ->
      exists s', validate_syntax env code idle =
                 Returns (false, Some (exc_str e), None) s') /\
  (forall e,
      ending (front_end env code) = Raised e ->
      is_PuffingError e = false ->
      is_Exception e = true ->
      exists s', validate_syntax env code idle =
                 Returns (false, Some ("Unexpected error: " +:+ exc_str e), None) s') /\
  (forall e,
      ending (front_end env code) = Raised e ->
      is_Exception e = false ->
      exists s', validate_syntax env code idle = Raises e s') /\
  (forall run' : unit -> Comp unit,
      validate_syntax (with_run env run') code idle = validate_syntax env code idle).
Proof.
  apply (validate_syntax_cases (demo Posix true hello) "print(1);" idle).
  reflexivity.
Defined.

End Samples.

(** ** app.py: the /execute endpoint and the inputs of a program *)

Section Endpoint.

Context {TokenType Value AST : Type}.
Variable env : Env TokenType Value AST.

(** The endpoint never gets as far as calling [execute]: reading
    [request.input_values] fails, and the failure is reported as a
    server error. *)
Lemma execute_code_server_error (request : App.CodeRequest) (s : State) :
  App.is_blank (App.code request) = false ->
  App.execute_code env request s =
  Raises
    (App.http_exception 500
       "Server error: 'CodeRequest' object has no attribute 'input_values'")
    s.
Proof.
  intros Hcode. unfold App.execute_code, try_except. by rewrite Hcode.
Qed.

(** A request with blank code fares no better: the 400 raised for it is
    caught by the [except Exception] of the endpoint itself. *)
Lemma execute_code_blank (request : App.CodeRequest) (s : State) :
  App.is_blank (App.code request) = true ->
  App.execute_code env request s =
  Raises (App.http_exception 500 "Server error: 400: Code cannot be empty") s.
Proof.
  intros Hcode. unfold App.execute_code, try_except. by rewrite Hcode.
Qed.

(** C9, against the code: [execute] takes a source and a timeout and
    nothing else.  Called with a third positional argument, the input
    values, as app.py calls it, it raises [TypeError] before any of its
    body runs, whatever the source, the timeout and the values are; and
    no request to the endpoint, which reads the values from a field the
    request model does not have, ever gets a result back: each is
    answered with a server error. *)
Theorem execute_rejects_input_values :
  (forall (code : string) (timeout : Z) (input_values : PyVal) (s : State),
      App.call_execute env code timeout [input_values] s =
      Raises
        (library_error "TypeError"
           "PuffingExecutor.execute() takes from 1 to 2 positional arguments but 3 were given")
        s) /\
  (forall (request : App.CodeRequest) (s : State),
      exists detail,
        App.execute_code env request s =
        Raises (App.http_exception 500 detail) s).
Proof.
  split; [reflexivity|].
  intros request s.
  destruct (App.is_blank (App.code request)) eqn:Hcode.
  - eexists. by apply execute_code_blank.
  - eexists. by apply execute_code_server_error.
Qed.

End Endpoint.

(** ** Calls of [execute] on several threads *)

Section Concurrency.

Import Threads.

(** The thread model and [execute] agree on a call that runs alone: for
    a program that only prints, [execute] returns what [own_result]
    says. *)
Lemma say_course (texts : list string) (budget : N) :
  ending (say texts) = Returned tt /\
  written (say texts) = printed texts /\
  runs_past budget (say texts) = false.
Proof.
  induction texts as [|text texts (Hend & Hwr & Hrun)]; simpl; [done|].
  by rewrite Hwr.
Qed.

Lemma execute_own_result {TokenType Value AST : Type}
    (env : Env TokenType Value AST) (code : string) (timeout : Z) (s : State)
    (texts : list string) :
  reaches_yield env timeout = true ->
  pipeline env code = say texts ->
  exists r s',
    execute env code timeout s = Returns r s' /\
    Succeeded <$> output r = Some (own_result (mkCall texts true)).
Proof.
  intros Hreach Hsay.
  destruct (say_course texts 0) as (Hend & Hwr & _).
  assert (Htime : in_time env code timeout s = true).
  { unfold in_time. rewrite Hsay.
    destruct (armed env timeout s) as [due|]; [|done].
    by destruct (say_course texts (due - now s)) as (_ & _ & ->). }
  rewrite execute_run, guarded_body, pipeline_in_time by done.
  rewrite Hsay, Hend, captured_output_written, Hwr.
  by eexists _, _.
Qed.

(** C3, where it fails: two calls that overlap, each printing its own
    marker.  While both programs run, what the first prints lands in the
    stream of the second, whose result then holds both markers, and the
    first is told it printed nothing.  Where the second call is refused
    by [signal.signal], it still takes the output of the first away. *)
Lemma overlapping_calls_mix_output :
  result_of <$>
    (run_schedule [0; 0; 0; 1; 1; 1; 0; 1; 1; 1; 0; 0]%nat
       (Examples.idle,
        spawn [mkCall ["marker-A"] true; mkCall ["marker-B"] true])).2
  = [Some (Succeeded "Program executed successfully!");
     Some (Succeeded "marker-Amarker-B")] /\
  result_of <$>
    (run_schedule [0; 0; 0; 1; 1; 0; 1; 1; 0; 0]%nat
       (Examples.idle,
        spawn [mkCall ["marker-A"] true; mkCall ["marker-B"] false])).2
  = [Some (Succeeded "Program executed successfully!");
     Some (Failed "ValueError")].
Proof. split; vm_compute; reflexivity. Qed.

End Concurrency.

(** ** More on the alarm: what [time_limit] and [execute] do with it *)

(** Foreign code leaves a pending alarm pending or spends it; it never
    sets one. *)
Lemma interp_alarm {A : Type} (c : Comp A) (s : State) :
  match interp c s with
  | Returns _ s' | Raises _ s' => alarm s' = alarm s \/ alarm s' = None
  | Hangs => True
  end.
Proof.
  revert s; induction c as [a|e|text k IH|d k IH|]; intros s; simpl.
  - by left.
  - by left.
  - apply (IH (stdout_write text s)).
  - specialize (IH (set_now (now s + d)%N s)). simpl in IH.
    destruct (alarm s) as [due|] eqn:Hal; [|exact IH].
    destruct (due <=? now s + d)%N; [by right | exact IH].
  - destruct (alarm s); [by right | done].
Qed.

Section Alarm.

Context {TokenType Value AST : Type}.
Variable env : Env TokenType Value AST.

(** X1: where there is SIGALRM and [time_limit] gets to its [yield], it
    always cancels the alarm on the way out: whatever the block under it
    does, whether it returns or raises, no alarm is pending afterwards. *)
Theorem time_limit_cancels_alarm {A : Type} (seconds : Z) (body : M A)
    (s : State) :
  sys_platform env = Posix ->
  reaches_yield env seconds = true ->
  match time_limit env seconds body s with
  | Returns _ s' | Raises _ s' => alarm s' = None
  | Hangs => True
  end.
Proof.
  intros Hp Hreach. unfold reaches_yield in Hreach. rewrite Hp in Hreach.
  apply andb_true_iff in Hreach as [Hm Hrange].
  apply negb_true_iff in Hrange.
  unfold time_limit. rewrite Hp, bind_run.
  unfold signal_signal. rewrite Hm. simpl.
  rewrite bind_run. unfold signal_alarm at 1. rewrite Hrange.
  unfold try_finally.
  destruct (body _) as [a s1|e s1|]; [| |done];
    by rewrite signal_alarm_cancel.
Qed.

(** What the [with] statement does to the alarm. *)
Lemma guarded_alarm (code : string) (timeout : Z) (s : State) :
  alarm s = None ->
  match guarded env code timeout s with
  | Returns _ s1 | Raises _ s1 => alarm s1 = None
  | Hangs => True
  end.
Proof.
  intros Hal. rewrite guarded_run.
  destruct (reaches_yield env timeout).
  - destruct (sys_platform env) eqn:Hp.
    + rewrite execute_body_run.
      pose proof (interp_alarm (pipeline env code) (redirected s)) as Hk.
      destruct (interp (pipeline env code) (redirected s)) as [[] s1|e s1|];
        [| |done]; simpl in Hk; destruct Hk; congruence.
    + rewrite execute_body_run.
      destruct (interp (pipeline env code) _) as [[] s1|e s1|]; done.
  - by destruct (main_thread env).
Qed.

(** X2: [execute] never leaves an alarm behind.  If none is pending when
    it is called, none is pending when it returns a result or lets an
    exception through, on every platform and thread, for every timeout. *)
Theorem execute_leaves_no_alarm (code : string) (timeout : Z) (s : State) :
  alarm s = None ->
  match execute env code timeout s with
  | Returns _ s' | Raises _ s' => alarm s' = None
  | Hangs => True
  end.
Proof.
  intros Hal. rewrite execute_run.
  pose proof (guarded_alarm code timeout s Hal) as Hg.
  destruct (guarded env code timeout s) as [r s1|e s1|]; [done| |done].
  rewrite execute_handlers_run.
  destruct (is_TimeoutException e);
    [|destruct (is_PuffingError e); [|destruct (is_Exception e)]]; done.
Qed.


End Alarm.

(** ** More on [execute] and [validate_syntax] together *)

Section ExecuteAndValidate.

Context {TokenType Value AST : Type}.
Variable env : Env TokenType Value AST.

(** A [PuffingError] that the pipeline raises in time is reported with
    its own message, the name of its class and a traceback. *)
Lemma puffing_error_result (code : string) (timeout : Z) (s : State) (e : PyExc) :
  reaches_yield env timeout = true ->
  ending (pipeline env code) = Raised e ->
  in_time env code timeout s = true ->
  is_PuffingError e = true ->
  exists t s',
    execute env code timeout s =
    Returns
      (mkResult false None (Some (exc_str e))
         (Some (class_name (exc_class e))) (Some (exc_traceback e)) t)
      s'.
Proof.
  intros Hreach Hend Htime Hp.
  assert (Hnt : is_TimeoutException e = false).
  { unfold is_PuffingError in Hp. unfold is_TimeoutException.
    by destruct (exc_class e). }
  rewrite execute_run, guarded_body, pipeline_in_time, Hend by done.
  rewrite execute_handlers_run, Hnt, Hp.
  by eexists _, _.
Qed.

(** X5: a language-level error raised in time anywhere in the pipeline
    (lexer, parser or interpreter) is reported as a failure that carries
    the message of the error unchanged, the name of its class as kind,
    and a traceback; whatever the program printed before is dropped. *)
Theorem language_error_reported (code : string) (timeout : Z) (s : State)
    (e : PyExc) :
  reaches_yield env timeout = true ->
  ending (pipeline env code) = Raised e ->
  in_time env code timeout s = true ->
  is_PuffingError e = true ->
  exists r s',
    execute env code timeout s = Returns r s' /\
    success r = false /\
    output r = None /\
    error r = Some (exc_str e) /\
    error_type r = Some (class_name (exc_class e)) /\
    traceback r = Some (exc_traceback e).
Proof.
  intros Hreach Hend Htime Hp.
  destruct (puffing_error_result code timeout s e Hreach Hend Htime Hp)
    as (t & s' & Hrun).
  rewrite Hrun. by eexists _, _.
Qed.

Lemma front_end_raised (code : string) (e : PyExc) :
  ending (front_end env code) = Raised e ->
  ending (pipeline env code) = Raised e.
Proof. intros Hend. unfold pipeline. by rewrite ending_cbind, Hend. Qed.

(** X6: a source the lexer or the parser rejects with a [PuffingError]
    is rejected the same way by both operations, where [execute] gets to
    run the pipeline ([time_limit] reaches its [yield]) and the error is
    raised in time: [validate_syntax], called with no alarm pending,
    answers [(False, message, None)] and [execute] fails with that same
    message, the class of the error as kind, and no output. *)
Theorem invalid_source_rejected_by_both (code : string) (timeout : Z)
    (s s0 : State) (e : PyExc) :
  ending (front_end env code) = Raised e ->
  is_PuffingError e = true ->
  alarm s0 = None ->
  reaches_yield env timeout = true ->
  in_time env code timeout s = true ->
  (exists s0',
      validate_syntax env code s0 = Returns (false, Some (exc_str e), None) s0') /\
  (exists r s',
      execute env code timeout s = Returns r s' /\
      success r = false /\
      output r = None /\
      error r = Some (exc_str e) /\
      error_type r = Some (class_name (exc_class e))).
Proof.
  intros Hend Hp Hal Hreach Htime. split.
  - destruct (validate_syntax_raised env code s0 e Hal Hend) as [s0' Hv].
    rewrite Hp in Hv. by exists s0'.
  - destruct (puffing_error_result code timeout s e Hreach
                (front_end_raised code e Hend) Htime Hp) as (t & s' & Hrun).
    rewrite Hrun. by eexists _, _.
Qed.

(** A pipeline that returns has a front end that returns. *)
Lemma pipeline_returned (code : string) :
  ending (pipeline env code) = Returned tt ->
  exists tokens ast,
    ending (tokenize env code) = Returned tokens /\
    ending (parse env tokens) = Returned ast.
Proof.
  unfold pipeline, front_end. rewrite !ending_cbind.
  destruct (ending (tokenize env code)) as [tokens|e|]; [|done..].
  destruct (ending (parse env tokens)) as [ast|e|] eqn:Hparse; [|done..].
  intros _. by exists tokens, ast.
Qed.

(** X7: whatever [execute] runs successfully, [validate_syntax] accepts:
    if [execute] returned a success for a source, then
    [validate_syntax] on that source answers [(True, None, tokens)]. *)
Theorem executed_source_is_valid (code : string) (timeout : Z) (s s' s0 : State)
    (r : ExecutionResult) :
  execute env code timeout s = Returns r s' ->
  success r = true ->
  alarm s0 = None ->
  exists tokens s0',
    validate_syntax env code s0 =
    Returns (true, None, Some (serialise env <$> tokens)) s0'.
Proof.
  rewrite execute_run.
  pose proof (guarded_sound env code timeout s) as Hg.
  destruct (guarded env code timeout s) as [r1 s1|e s1|]; [| |done].
  - destruct Hg as (_ & Hend & _). intros _ _ Hal.
    destruct (pipeline_returned code Hend) as (tokens & ast & Htok & Hparse).
    exists tokens. rewrite validate_syntax_run.
    rewrite (interp_uninterrupted (tokenize env code) s0), Htok by (by rewrite Hal).
    rewrite (interp_uninterrupted (parse env tokens)), Hparse
      by (by rewrite finish_alarm, Hal).
    by eexists.
  - rewrite execute_handlers_run.
    destruct (is_TimeoutException e);
      [|destruct (is_PuffingError e); [|destruct (is_Exception e); [|done]]];
      by intros [= <- <-].
Qed.

(** With no alarm pending, what [validate_syntax] hands back does not
    depend on the state it is called in. *)
Lemma validate_syntax_handed_back (code : string) (s1 s2 : State) :
  alarm s1 = None ->
  alarm s2 = None ->
  handed_back (validate_syntax env code s1)
  = handed_back (validate_syntax env code s2).
Proof.
  intros H1 H2. rewrite !validate_syntax_run.
  rewrite (interp_uninterrupted (tokenize env code) s1) by (by rewrite H1).
  rewrite (interp_uninterrupted (tokenize env code) s2) by (by rewrite H2).
  destruct (ending (tokenize env code)) as [tokens|e|]; [| |done].
  - rewrite (interp_uninterrupted (parse env tokens) (finish _ s1))
      by (by rewrite finish_alarm, H1).
    rewrite (interp_uninterrupted (parse env tokens) (finish _ s2))
      by (by rewrite finish_alarm, H2).
    destruct (ending (parse env tokens)) as [ast|e|]; [done| |done].
    destruct (is_PuffingError e); [done|]. by destruct (is_Exception e).
  - destruct (is_PuffingError e); [done|]. by destruct (is_Exception e).
Qed.

(** [validate_syntax] binds nothing and creates nothing: [sys.stdout] is
    bound as before, no stream is added, and a process without a pending
    alarm stays so. *)
Lemma validate_syntax_later (code : string) (s : State) :
  match validate_syntax env code s with
  | Returns _ s' | Raises _ s' =>
      later s s' /\ (alarm s = None -> alarm s' = None)
  | Hangs => True
  end.
Proof.
  rewrite validate_syntax_run.
  pose proof (interp_later (tokenize env code) s) as Hl1.
  pose proof (interp_alarm (tokenize env code) s) as Ha1.
  destruct (interp (tokenize env code) s) as [tokens s1|e s1|]; [| |done].
  - pose proof (interp_later (parse env tokens) s1) as Hl2.
    pose proof (interp_alarm (parse env tokens) s1) as Ha2.
    assert (Hal : forall s2, (alarm s2 = alarm s1 \/ alarm s2 = None) ->
                              alarm s = None -> alarm s2 = None)
      by (intros s2 [] ?; destruct Ha1; congruence).
    destruct (interp (parse env tokens) s1) as [ast s2|e s2|]; [| |done].
    + split; [by eapply later_trans | by apply Hal].
    + destruct (is_PuffingError e); [|destruct (is_Exception e)];
        (split; [by eapply later_trans | by apply Hal]).
  - assert (Hal : alarm s = None -> alarm s1 = None)
      by (intros ?; destruct Ha1; congruence).
    destruct (is_PuffingError e); [|destruct (is_Exception e)]; by split.
Qed.

(** X8: [validate_syntax] is idempotent.  Called again in the state the
    first call left (no alarm pending, as always outside [execute]), it
    answers exactly what it answered the first time. *)
Theorem validate_syntax_idempotent (code : string) (s s' : State)
    (answer : bool * option string * option (list (TokenDict Value))) :
  alarm s = None ->
  validate_syntax env code s = Returns answer s' ->
  exists s'', validate_syntax env code s' = Returns answer s''.
Proof.
  intros Hal Hrun.
  pose proof (validate_syntax_later code s) as Hl. rewrite Hrun in Hl.
  destruct Hl as (_ & Hal'). specialize (Hal' Hal).
  pose proof (validate_syntax_handed_back code s s' Hal Hal') as Hsame.
  rewrite Hrun in Hsame. simpl in Hsame.
  destruct (validate_syntax env code s') as [answer' s''|e s''|];
    simpl in Hsame; [|done..].
  injection Hsame as <-. by exists s''.
Qed.

(** X9: [validate_syntax] has no effect on output redirection: however
    it ends, [sys.stdout] is bound to the stream it was bound to, no
    stream has been created, and no stream other than the one
    [sys.stdout] is bound to has been written to. *)
Theorem validate_syntax_keeps_stdout (code : string) (s : State) :
  match validate_syntax env code s with
  | Returns _ s' | Raises _ s' =>
      sys_stdout s' = sys_stdout s /\
      length (streams s') = length (streams s) /\
      forall o, o <> sys_stdout s -> streams s' !! o = streams s !! o
  | Hangs => True
  end.
Proof.
  pose proof (validate_syntax_later code s) as Hl.
  destruct (validate_syntax env code s) as [answer s'|e s'|]; [| |done];
    by destruct Hl as ((_ & Ho & Hn & Hs) & _).
Qed.

End ExecuteAndValidate.

(** ** app.py: the /validate endpoint *)

Section ValidateEndpoint.

Context {TokenType Value AST : Type}.
Variable env : Env TokenType Value AST.
Variable blank : string -> bool.

(** The answers of [validate_syntax] come in two shapes only, and what it
    lets through is never an [Exception]. *)
Lemma validate_syntax_answers (code : string) (s : State) :
  match validate_syntax env code s with
  | Returns (is_valid, error_msg, tokens) _ =>
      (is_valid = true /\ error_msg = None /\ is_Some tokens) \/
      (is_valid = false /\ is_Some error_msg /\ tokens = None)
  | Raises e _ => is_Exception e = false
  | Hangs => True
  end.
Proof.
  rewrite validate_syntax_run.
  destruct (interp (tokenize env code) s) as [toks s1|e s1|]; [| |done].
  - destruct (interp (parse env toks) s1) as [ast s2|e s2|]; [| |done].
    + left. by eauto.
    + destruct (is_PuffingError e); [right; by eauto|].
      destruct (is_Exception e) eqn:He; [right; by eauto | done].
  - destruct (is_PuffingError e); [right; by eauto|].
    destruct (is_Exception e) eqn:He; [right; by eauto | done].
Qed.

(** X11: whatever the request, POST /validate never ends in the server
    error of its own [except] clause: the handler returns a response or
    lets through something that is not an [Exception].  Every response
    carries the tokens exactly when it says valid and an error message
    exactly when it says invalid; and for code that [str.strip()]
    leaves empty it is the fixed refusal, made without calling the
    lexer. *)
Theorem validate_endpoint_outcomes (request : Validate.ValidationRequest)
    (s : State) :
  match Validate.validate_syntax env blank request s with
  | Returns response s' =>
      (Validate.valid response = true <-> is_Some (Validate.tokens response)) /\
      (Validate.valid response = false <-> is_Some (Validate.error response)) /\
      (blank (Validate.code request) = true ->
       response = Validate.mkValidationResponse false
                    (Some "Code cannot be empty") None /\
       s' = s)
  | Raises e _ => is_Exception e = false
  | Hangs => True
  end.
Proof.
  unfold Validate.validate_syntax, try_except.
  destruct (blank (Validate.code request)) eqn:Hblank.
  - simpl. split; [|split; [|done]].
    + split; [done | by intros []].
    + split; [by eauto | done].
  - rewrite bind_run.
    pose proof (validate_syntax_answers (Validate.code request) s) as Hans.
    destruct (validate_syntax env (Validate.code request) s)
      as [[[is_valid error_msg] tokens] s1|e s1|]; [| |done].
    + simpl.
      destruct Hans as [(-> & -> & Htok)|(-> & Herr & ->)]; simpl.
      * split; [done|]. split; [|done]. split; [done | by intros []].
      * split; [split; [done | by intros []]|]. by split.
    + by rewrite Hans.
Qed.

End ValidateEndpoint.

(** ** app.py: the origins CORS lets in *)

(** X12: the two hosted front ends are allowed whatever the environment;
    the local development origins are allowed exactly when ENVIRONMENT
    is set to "development"; so unless it is, and in particular when it
    is not set at all, every allowed origin is an https one. *)
Theorem localhost_only_in_development (variable : option string) :
  "https://puffingmanual.web.app" ∈ Cors.allowed_origins variable /\
  "https://puffingmanual.firebaseapp.com" ∈ Cors.allowed_origins variable /\
  ("http://localhost:5173" ∈ Cors.allowed_origins variable
   <-> variable = Some "development") /\
  ("http://localhost:5000" ∈ Cors.allowed_origins variable
   <-> variable = Some "development") /\
  (variable <> Some "development" ->
   Forall (fun origin => Cors.is_https origin = true)
     (Cors.allowed_origins variable)).
Proof.
  unfold Cors.allowed_origins, Cors.ENVIRONMENT.
  destruct (String.eqb_spec (default "production" variable) "development")
    as [Hdev|Hdev].
  - assert (variable = Some "development") as ->
      by (destruct variable as [v|]; simpl in Hdev; [by subst | done]).
    repeat split; try done; rewrite ?list_elem_of_In; simpl; tauto.
  - assert (Hvar : variable <> Some "development")
      by (intros ->; by apply Hdev).
    split; [rewrite list_elem_of_In; simpl; tauto|].
    split; [rewrite list_elem_of_In; simpl; tauto|].
    split; [|split].
    + split; [|done]. rewrite list_elem_of_In; simpl.
      intros [|[|[]]]; discriminate.
    + split; [|done]. rewrite list_elem_of_In; simpl.
      intros [|[|[]]]; discriminate.
    + intros _. simpl. repeat constructor.
Qed.

(** ** Two more edges *)


(** ** Calls of [execute] made one after the other *)

(** Foreign code that returns has run its whole course. *)
Lemma interp_returns_finish {A : Type} (c : Comp A) (s s' : State) (a : A) :
  interp c s = Returns a s' -> s' = finish c s.
Proof.
  revert s; induction c as [a0|e|text k IH|d k IH|]; intros s Hrun;
    simpl in Hrun.
  - injection Hrun as _ <-. unfold finish; simpl.
    rewrite stdout_write_empty, N.add_0_r.
    unfold set_now; by rewrite state_eta.
  - done.
  - rewrite (IH _ Hrun). unfold finish. by rewrite stdout_write_app.
  - assert (Hk : interp k (set_now (now s + d)%N s) = Returns a s').
    { destruct (alarm s) as [due|]; [|done].
      by destruct (due <=? now s + d)%N. }
    rewrite (IH _ Hk).
    unfold finish, set_now, stdout_write, set_streams; simpl.
    by rewrite N.add_assoc.
  - by destruct (alarm s).
Qed.

Section CallsInTurn.

Context {TokenType Value AST : Type}.
Variable env : Env TokenType Value AST.

(** Whatever state a call of [execute] starts in, the output it returns
    is what its own pipeline wrote. *)
Lemma execute_output_own (code : string) (timeout : Z) (s s' : State)
    (r : ExecutionResult) (out : string) :
  execute env code timeout s = Returns r s' ->
  output r = Some out ->
  out = output_or_placeholder (written (pipeline env code)).
Proof.
  rewrite execute_run.
  destruct (reaches_yield env timeout) eqn:Hreach.
  - rewrite guarded_body by done.
    destruct (interp (pipeline env code) (entered env timeout s))
      as [[] s1|e s1|] eqn:Hrun; [| |done].
    + rewrite (interp_returns_finish _ _ _ _ Hrun), captured_output_written.
      intros [= <- _]. simpl. by intros [= <-].
    + rewrite execute_handlers_run.
      destruct (is_TimeoutException e);
        [|destruct (is_PuffingError e); [|destruct (is_Exception e); [|done]]];
        by intros [= <- _].
  - rewrite guarded_run, Hreach.
    destruct (main_thread env); rewrite execute_handlers_run; simpl;
      by intros [= <- _].
Qed.

(** A call that returns has rebound [sys.stdout] to what it found. *)
Lemma execute_returns_stdout (code : string) (timeout : Z) (s s' : State)
    (r : ExecutionResult) :
  execute env code timeout s = Returns r s' ->
  sys_stdout s' = sys_stdout s.
Proof.
  rewrite execute_run.
  destruct (guarded env code timeout s) as [r1 s1|e s1|]; [| |done].
  - by intros [= _ <-].
  - rewrite execute_handlers_run.
    destruct (is_TimeoutException e);
      [|destruct (is_PuffingError e); [|destruct (is_Exception e); [|done]]];
      by intros [= _ <-].
Qed.

(** C3 (as amended): when the calls do not overlap (each returns before
    the next one is entered) every call's result contains only the
    output of its own program: its [output] is absent, or it is the text
    its own pipeline wrote, the placeholder standing in for an empty
    one, whatever the calls before it printed; and [sys.stdout] ends up
    bound as it was before the first call. *)
Theorem calls_in_turn_isolated (calls : list (string * Z)) (s s' : State)
    (results : list ExecutionResult) :
  execute_each env calls s = Returns results s' ->
  Forall2
    (fun call r =>
       output r = None \/
       output r = Some (output_or_placeholder (written (pipeline env call.1))))
    calls results /\
  sys_stdout s' = sys_stdout s.
Proof.
  revert s results; induction calls as [|[code timeout] calls IH];
    intros s results; simpl.
  - intros [= <- <-]. by split.
  - rewrite bind_run.
    destruct (execute env code timeout s) as [r s1|e s1|] eqn:Hrun; [|done..].
    pose proof (execute_returns_stdout _ _ _ _ _ Hrun) as Hout.
    rewrite bind_run.
    destruct (execute_each env calls s1) as [rs s2|e s2|] eqn:Hrest; [|done..].
    intros [= <- <-].
    destruct (IH _ _ Hrest) as [Hall Hout'].
    split; [|congruence].
    constructor; [|done]. simpl.
    destruct (output r) as [out|] eqn:Hr; [right | by left].
    f_equal. by eapply execute_output_own.
Qed.

End CallsInTurn.

(** ** The further guarantees on sample programs *)

Section MoreSamples.

Import Examples MoreExamples Threads.

(** X1 on a block that raises. *)
Lemma time_limit_cancels_alarm_witness :
  match time_limit (demo Posix true hello) 5 (raise key_error : M unit) idle with
  | Returns _ s' | Raises _ s' => alarm s' = None
  | Hangs => True
  end.
Proof.
  apply (time_limit_cancels_alarm (demo Posix true hello) 5 (raise key_error) idle);
    reflexivity.
Defined.

(** X2 on a loop that is timed out. *)
Lemma execute_leaves_no_alarm_witness :
  match execute (demo Posix true forever) "while (true) { }" 1 idle with
  | Returns _ s' | Raises _ s' => alarm s' = None
  | Hangs => True
  end.
Proof.
  apply (execute_leaves_no_alarm (demo Posix true forever) "while (true) { }" 1 idle).
  reflexivity.
Defined.


(** X5 on an undefined variable. *)
Lemma language_error_reported_witness :
  exists r s',
    execute (demo Posix true (crash undefined_variable)) "print(x);" 5 idle
    = Returns r s' /\
    success r = false /\
    output r = None /\
    error r = Some "Undefined variable 'x'" /\
    error_type r = Some "PuffingNameError" /\
    traceback r = Some "PuffingNameError: Undefined variable 'x'".
Proof.
  apply (language_error_reported (demo Posix true (crash undefined_variable))
           "print(x);" 5 idle undefined_variable); reflexivity.
Defined.

(** X6 on that lexer. *)
Lemma invalid_source_rejected_by_both_witness :
  (exists s0',
      validate_syntax strict_lexer "print(" idle =
      Returns (false, Some "Unterminated string at line 1", None) s0') /\
  (exists r s',
      execute strict_lexer "print(" 5 idle = Returns r s' /\
      success r = false /\
      output r = None /\
      error r = Some "Unterminated string at line 1" /\
      error_type r = Some "LexerError").
Proof.
  apply (invalid_source_rejected_by_both strict_lexer "print(" 5 idle idle
           unterminated_string); reflexivity.
Defined.

(** X7 on the hello program. *)
Lemma executed_source_is_valid_witness :
  exists tokens s0',
    validate_syntax (demo Posix true hello) "print(1);" idle =
    Returns (true, None, Some (serialise (demo Posix true hello) <$> tokens)) s0'.
Proof.
  apply (executed_source_is_valid (demo Posix true hello) "print(1);" 5 idle
           (mkState 500 None 0 [""; "Hello, Puffing!" +:+ newline]) idle
           (mkResult true (Some ("Hello, Puffing!" +:+ newline)) None None None 5)).
  - vm_compute; reflexivity.
  - reflexivity.
  - reflexivity.
Defined.

(** X8 on the hello program. *)
Lemma validate_syntax_idempotent_witness :
  exists s'',
    validate_syntax (demo Posix true hello) "print(1);" (mkState 200 None 0 [""])
    = Returns
        (true, None,
         Some [mkTokenDict "IDENTIFIER" "print"; mkTokenDict "STRING" "print(1);"])
        s''.
Proof.
  apply (validate_syntax_idempotent (demo Posix true hello) "print(1);" idle).
  - reflexivity.
  - vm_compute; reflexivity.
Defined.

(** The amended C3 on two calls in turn, each printing its own source. *)
Lemma calls_in_turn_isolated_witness :
  let calls := [("marker-A", 5); ("marker-B", 5)] in
  let results :=
    [mkResult true (Some "marker-A") None None None 5;
     mkResult true (Some "marker-B") None None None 5] in
  let s' := mkState 1000 None 0 [""; "marker-A"; "marker-B"] in
  execute_each echo calls idle = Returns results s' /\
  Forall2
    (fun call r =>
       output r = None \/
       output r = Some (output_or_placeholder (written (pipeline echo call.1))))
    calls results /\
  sys_stdout s' = sys_stdout idle.
Proof.
  split; [vm_compute; reflexivity|].
  apply (calls_in_turn_isolated echo [("marker-A", 5); ("marker-B", 5)] idle).
  vm_compute; reflexivity.
Defined.


End MoreSamples.
